(** * The session task orchestrator of [bot.py] ([LikerManager])

    A shallow embedding of the liker task of [src/bot.py]: the single token
    fetch [_fetch_single_jwt_token], the token stage
    [_fetch_jwt_concurrently_superbot_style], the three-step pipeline
    [_run_task_logic] and the controls [start_liker_task] /
    [stop_liker_task].

    Python values that come out of [json.loads] / [response.json()] are the
    inductive [json]; every call to the outside (Telegram, the two HTTP APIs,
    GitHub, [time.sleep]) appends an [event] to the world's [trace] and has
    its outcome chosen by the environment [Env] as a function of the history,
    so that a statement quantified over [Env] covers every behaviour of the
    external services.  Exceptions are the [Raise] results of the monad [M]. *)

From stdpp Require Import gmap strings list pretty sorting.
From Stdlib Require Import ZArith.

Local Open Scope string_scope.
Local Open Scope list_scope.
Local Open Scope Z_scope.

(** ** Python values *)

(** A Python [float]: [(-1)^neg * m * 2^e], an infinity, or NaN. *)
Inductive pyfloat : Type :=
| FFinite (neg : bool) (m : N) (e : Z)
| FInf (neg : bool)
| FNan.

(** The values [json.loads] builds.  A [JDict] lists the items of the dict in
    insertion order (keys are unique in a Python dict; lookup takes the first
    item with the key). *)
#[warnings="-register-all"]
Inductive json : Type :=
| JNull
| JBool (b : bool)
| JInt (n : Z)
| JFloat (f : pyfloat)
| JStr (s : string)
| JList (l : list json)
| JDict (d : list (string * json)).

Definition dict : Type := list (string * json).

(** Python truthiness, [bool(v)]. *)
Definition truthy (v : json) : bool :=
  match v with
  | JNull => false
  | JBool b => b
  | JInt n => negb (n =? 0)
  | JFloat (FFinite _ m _) => negb (m =? 0)%N
  | JFloat _ => true
  | JStr s => negb (String.eqb s "")
  | JList l => match l with [] => false | _ :: _ => true end
  | JDict d => match d with [] => false | _ :: _ => true end
  end.

(** [d.get(k)] as an option: [None] when the key is absent. *)
Fixpoint dict_lookup (k : string) (d : dict) : option json :=
  match d with
  | [] => None
  | (k', v) :: d' => if String.eqb k k' then Some v else dict_lookup k d'
  end.

(** [k in d]. *)
Definition dict_mem (k : string) (d : dict) : bool :=
  match dict_lookup k d with Some _ => true | None => false end.

(** [v == s] for a Python string literal [s]. *)
Definition eq_str (v : json) (s : string) : bool :=
  match v with
  | JStr s' => String.eqb s' s
  | _ => false
  end.

(** ** Exceptions *)

(** The exception classes the code distinguishes; the argument is [str(e)].
    A [ConnectionError] carries whether its [args[0]] is a [ProtocolError]
    whose [args[1]] is a [ConnectionResetError], the test of line 553.
    [requests.exceptions.Timeout] includes [ConnectTimeout], which the
    [except Timeout] clause sees first. *)
Inductive exn : Type :=
| Timeout (msg : string)
| ConnectionError (reset : bool) (msg : string)
| JSONDecodeError (msg : string)
| ApiTelegramException (msg : string)
| UnknownObjectException (msg : string)
| AttributeError (msg : string)
| KeyError (key : string)
| OtherException (msg : string).

(** [str(e)], as the f-strings [{e}] print it. *)
Definition exn_str (e : exn) : string :=
  match e with
  | Timeout m | ConnectionError _ m | JSONDecodeError m
  | ApiTelegramException m | UnknownObjectException m
  | AttributeError m | OtherException m => m
  | KeyError k => "'" +:+ k +:+ "'"
  end.

Inductive result (A : Type) : Type :=
| Ok (a : A)
| Raise (e : exn).
Arguments Ok {A} a.
Arguments Raise {A} e.

(** ** HTTP responses *)

(** What [response.json()] does: return a value, or raise on a body that is
    not JSON. *)
Inductive body : Type :=
| JsonBody (v : json)
| NotJson (err : string).

Record response : Type := mkResponse {
  status_code : Z;
  text : string;
  parsed : body
}.

(** ** The per-chat configuration

    [self.settings[chat_id]] is a dict holding at most the seven keys the
    setup wizard writes ([process_setup_input],
    [handle_github_setup_callback]); a field is [None] when its key is
    absent.  The URL, token, repository and path are [str], the targets are
    the digit strings [re.findall] returns, and the guest accounts are
    whatever list the uploaded JSON file held. *)
Record config : Type := mkConfig {
  jwt_api : option string;
  like_api : option string;
  guest_accounts : option (list json);
  github_token : option string;
  github_repo : option string;
  github_file_path : option string;
  target_uids : option (list string)
}.

(** The empty dict [{}]. *)
Definition empty_config : config := mkConfig None None None None None None None.

Definition is_some {A} (o : option A) : bool :=
  match o with Some _ => true | None => false end.

(** [bool(config)]: a dict is truthy when it has a key. *)
Definition config_truthy (c : config) : bool :=
  is_some (jwt_api c) || is_some (like_api c) || is_some (guest_accounts c)
  || is_some (github_token c) || is_some (github_repo c)
  || is_some (github_file_path c) || is_some (target_uids c).

Definition str_truthy (o : option string) : bool :=
  match o with Some s => negb (String.eqb s "") | None => false end.

Definition list_truthy {A} (o : option (list A)) : bool :=
  match o with Some (_ :: _) => true | _ => false end.

(** ** Events, threads and the world *)

(** One call to the outside.  The trace is in chronological order. *)
Inductive event : Type :=
| ESend (chat : Z) (msg : string)
    (* self.bot.send_message(chat_id, msg, ...) *)
| EEdit (chat : Z) (ref : nat) (msg : string)
    (* self.bot.edit_message_text(msg, chat_id, progress_msg.message_id) *)
| EJwtGet (url : string)
    (* requests.get(full_url, timeout=60) *)
| ELikeGet (url : string) (uid : string)
    (* requests.get(like_api_url, params={'uid': uid, 'server_name': 'ind'}, timeout=60) *)
| ESleep (secs : Z)
    (* time.sleep(secs) *)
| EGhRepo (token repo : string)
    (* Github(token).get_repo(repo) *)
| EGhGetContents (repo path : string)
    (* repo.get_contents(path) *)
| EGhUpdate (repo path content : string) (sha : nat)
    (* repo.update_file(path, "Auto-update tokens", content, sha) *)
| EGhCreate (repo path content : string).
    (* repo.create_file(path, "Create token file", content) *)

(** A background thread running [_task_loop] with its own
    [threading.Event]. *)
Record thread : Type := mkThread {
  th_chat : Z;
  th_stop : bool;   (* stop_event.is_set() *)
  th_alive : bool   (* the thread has not returned *)
}.

Record World : Type := mkWorld {
  settings : gmap Z config;       (* self.settings *)
  threads : gmap Z nat;           (* self.threads: chat_id -> index in [pool] *)
  pool : list thread;             (* every thread ever started *)
  store : gmap (string * string) (string * nat);
                                  (* GitHub: (repo, path) -> (content, sha) *)
  trace : list event
}.

(** The interpreter's builtins the code calls and the outside world.  Each
    oracle sees the trace up to and including the call it answers. *)
Record Env : Type := mkEnv {
  py_str : json -> string;            (* str(v), also what an f-string prints *)
  json_dumps : list json -> string;   (* json.dumps(v, indent=4) *)
  tg : list event -> option exn;      (* Telegram: the call raises, or not *)
  web : list event -> result response;(* requests.get: the response, or raises *)
  gh : list event -> option exn;      (* GitHub: a fault, else the store answers *)
  finish : nat -> nat                 (* completion time of the i-th future *)
}.

(** ** The monad: state passing over [World], with exceptions *)

Definition M (A : Type) : Type := World -> result A * World.

Definition ret {A} (a : A) : M A := fun w => (Ok a, w).

Definition raise {A} (e : exn) : M A := fun w => (Raise e, w).

Definition bind {A B} (m : M A) (f : A -> M B) : M B :=
  fun w =>
    match m w with
    | (Ok a, w') => f a w'
    | (Raise e, w') => (Raise e, w')
    end.

(** [try: m  except Exception as e: h e] *)
Definition try_except {A} (m : M A) (h : exn -> M A) : M A :=
  fun w =>
    match m w with
    | (Ok a, w') => (Ok a, w')
    | (Raise e, w') => h e w'
    end.

Declare Scope m_scope.
Delimit Scope m_scope with M.
Notation "x <- m ;; k" := (bind m (fun x => k))
  (at level 100, m at next level, right associativity) : m_scope.
Notation "m ;; k" := (bind m (fun _ => k))
  (at level 100, right associativity) : m_scope.
Local Open Scope m_scope.

(** [for x in l: s = body(s, x)] *)
Fixpoint for_each {A S} (l : list A) (s : S) (f : S -> A -> M S) : M S :=
  match l with
  | [] => ret s
  | x :: l' => s' <- f s x ;; for_each l' s' f
  end.

(** Run [m] and hand its outcome over as a value: what a future stores, and
    what a [try] whose handler returns from the function amounts to. *)
Definition capture {A} (m : M A) : M (result A) :=
  fun w => let (r, w') := m w in (Ok r, w').

(** Re-raise a stored outcome: [future.result()]. *)
Definition reraise {A} (r : result A) : M A :=
  match r with
  | Ok a => ret a
  | Raise e => raise e
  end.

(** The world after one more call to the outside. *)
Definition emit (e : event) (w : World) : World :=
  mkWorld (settings w) (threads w) (pool w) (store w) (trace w ++ [e]).

Definition log (e : event) : M unit := fun w => (Ok tt, emit e w).

Definition get_world : M World := fun w => (Ok w, w).

Definition set_settings (s : gmap Z config) : M unit :=
  fun w => (Ok tt, mkWorld s (threads w) (pool w) (store w) (trace w)).

Definition set_registry (t : gmap Z nat) (p : list thread) : M unit :=
  fun w => (Ok tt, mkWorld (settings w) t p (store w) (trace w)).

Definition set_store (s : gmap (string * string) (string * nat)) : M unit :=
  fun w => (Ok tt, mkWorld (settings w) (threads w) (pool w) s (trace w)).

Definition nl : string := String (Ascii.ascii_of_nat 10) "".

(** *** Python [str]

    A [string] holds the UTF-8 encoding of a Python [str].  [len] and slices
    count code points: every byte but the continuation bytes (those of the
    form 10xxxxxx) starts one. *)
Definition is_continuation (a : Ascii.ascii) : bool :=
  let n := Ascii.nat_of_ascii a in ((128 <=? n) && (n <? 192))%nat.

(** [len(s)] *)
Fixpoint py_len (s : string) : nat :=
  match s with
  | EmptyString => O
  | String a s' => ((if is_continuation a then 0 else 1) + py_len s')%nat
  end.

(** [s[:n]]: the first [n] code points, each with its continuation bytes. *)
Fixpoint py_prefix (n : nat) (s : string) : string :=
  match s with
  | EmptyString => EmptyString
  | String a s' =>
      if is_continuation a then String a (py_prefix n s')
      else match n with
           | O => EmptyString
           | S n' => String a (py_prefix n' s')
           end
  end.

(** [str(n)] for a Python [int]. *)
Definition str_int (n : Z) : string := pretty n.

Section Bot.

Context (env : Env).

(** *** The outside calls *)

(** [self.bot.send_message(chat_id, msg)]; the value is the message sent
    (its position in the trace stands for [message_id]). *)
Definition send_message (chat : Z) (msg : string) : M nat :=
  log (ESend chat msg) ;;
  w <- get_world ;;
  match tg env (trace w) with
  | None => ret (length (trace w))
  | Some e => raise e
  end.

Definition edit_message_text (msg : string) (chat : Z) (ref : nat) : M unit :=
  log (EEdit chat ref msg) ;;
  w <- get_world ;;
  match tg env (trace w) with
  | None => ret tt
  | Some e => raise e
  end.

Definition sleep (secs : Z) : M unit := log (ESleep secs).

(** The answer of [requests.get] to the request logged last. *)
Definition http_answer : M response :=
  w <- get_world ;;
  match web env (trace w) with
  | Ok r => ret r
  | Raise e => raise e
  end.

(** [response.json()] *)
Definition response_json (r : response) : M json :=
  match parsed r with
  | JsonBody v => ret v
  | NotJson err => raise (JSONDecodeError err)
  end.

(** [x.get(k)]: [AttributeError] unless [x] is a dict. *)
Definition py_get (x : json) (k : string) : M json :=
  match x with
  | JDict d => ret (default JNull (dict_lookup k d))
  | _ => raise (AttributeError "object has no attribute 'get'")
  end.

(** *** [_fetch_single_jwt_token] (lines 537-555) *)

(** The pair [(result_dict, error_reason)] the function returns. *)
Definition fetch_result : Type := option json * option string.

Definition _fetch_single_jwt_token (account : json) (api_url : string)
  : M fetch_result :=
  uid <- py_get account "uid" ;;
  password <- py_get account "password" ;;
  if negb (truthy uid) || negb (truthy password)
  then ret (None, Some "Missing uid or password")
  else
    let full_url :=
      api_url +:+ "?uid=" +:+ py_str env uid +:+ "&password="
              +:+ py_str env password in
    try_except
      (log (EJwtGet full_url) ;;
       response <- http_answer ;;
       if status_code response =? 200 then
         token_data <- response_json response ;;
         let token_str :=
           match token_data with
           | JDict d =>
               if dict_mem "token" d then dict_lookup "token" d else None
           | JList (JDict d0 :: _) =>
               if dict_mem "token" d0 then dict_lookup "token" d0 else None
           | _ => None
           end in
         match token_str with
         | Some t =>
             if truthy t then ret (Some (JDict [("token", t)]), None)
             else ret (None, Some ("Token key/format invalid: "
                        +:+ py_prefix 100 (py_str env token_data)))
         | None =>
             ret (None, Some ("Token key/format invalid: "
                    +:+ py_prefix 100 (py_str env token_data)))
         end
       else ret (None, Some ("API failed (Status: "
                   +:+ str_int (status_code response) +:+ ")")))
      (fun e =>
         match e with
         | Timeout _ => ret (None, Some "Timeout (60s)")
         | ConnectionError true _ => ret (None, Some "Connection Reset by Server")
         | ConnectionError false _ =>
             ret (None, Some ("Connection Error: " +:+ exn_str e))
         | _ => ret (None, Some ("General Error: " +:+ exn_str e))
         end).

(** *** [_fetch_jwt_concurrently_superbot_style] (lines 558-608) *)

(** A submitted future: the label [futures[future]] and the outcome of the
    worker's call.  The code hands the calls to a pool of four workers and
    fixes neither the order of their requests nor how they interleave with
    the progress edits; here one schedule stands for all of them: each call
    runs when it is submitted.  The order in which the caller sees the
    futures finish is [as_completed], chosen by the environment.  What is
    stated of the token stage below (counts, the collection of requests, the
    order of the tokens relative to completion) does not depend on the
    schedule. *)
Definition future : Type := json * result fetch_result.

(** The body of the submission loop, lines 573-576, on
    [(total_to_process, futures)]. *)
Definition submit_one (api_url : string) (st : Z * list future) (acc : json)
  : M (Z * list future) :=
  let '(total_to_process, futures) := st in
  uid <- py_get acc "uid" ;;
  if truthy uid then
    password <- py_get acc "password" ;;
    if truthy password then
      r <- capture (_fetch_single_jwt_token acc api_url) ;;
      ret (total_to_process + 1, futures ++ [(uid, r)])
    else ret st
  else ret st.

Definition submit_all (accounts : list json) (api_url : string)
  : M (Z * list future) :=
  for_each accounts (0, ([] : list future)) (submit_one api_url).

Definition earlier {A} (a b : nat * A) : Prop :=
  (finish env a.1 <= finish env b.1)%nat.

#[global] Instance earlier_dec {A} (a b : nat * A) : Decision (earlier a b) :=
  decide (finish env a.1 <= finish env b.1)%nat.

Definition as_completed {A} (futures : list A) : list A :=
  snd <$> merge_sort earlier (imap (fun i x => (i, x)) futures).

(** [failed_reasons[r] = failed_reasons.get(r, 0) + 1] on the
    insertion-ordered dict. *)
Fixpoint bump (r : option string) (h : list (option string * Z))
  : list (option string * Z) :=
  match h with
  | [] => [(r, 1)]
  | (r', n) :: h' =>
      if decide (r = r') then (r', n + 1) :: h' else (r', n) :: bump r h'
  end.

Record jwt_state : Type := mkJwt {
  tokens_list : list json;
  success_count : Z;
  fail_count : Z;
  failed_reasons : list (option string * Z);
  processed_count : Z
}.

(** [f"{reason}"] for a reason that may be [None]. *)
Definition reason_str (r : option string) : string :=
  match r with Some s => s | None => "None" end.

(** [except telebot.apihelper.ApiTelegramException: h] *)
Definition except_api {A} (m : M A) (h : M A) : M A :=
  try_except m
    (fun e => match e with ApiTelegramException _ => h | _ => raise e end).

(** The body of the [as_completed] loop, lines 580-594. *)
Definition collect (chat : Z) (progress_msg : option nat)
    (total_to_process : Z) (st : jwt_state) (fu : future) : M jwt_state :=
  let processed := processed_count st + 1 in
  res <- reraise fu.2 ;;
  let '(result_dict, error_reason) := (res : fetch_result) in
  let st' :=
    if match result_dict with Some d => truthy d | None => false end
    then mkJwt (tokens_list st ++ [default JNull result_dict])
               (success_count st + 1) (fail_count st)
               (failed_reasons st) processed
    else mkJwt (tokens_list st) (success_count st) (fail_count st + 1)
               (bump error_reason (failed_reasons st)) processed in
  match progress_msg with
  | Some ref =>
      if (processed mod 5 =? 0) || (processed =? total_to_process) then
        except_api
          (edit_message_text
             ("⏳ Processed " +:+ str_int processed +:+ "/"
              +:+ str_int total_to_process +:+ " JWT requests...") chat ref)
          (ret tt) ;;
        ret st'
      else ret st'
  | None => ret st'
  end.

Definition _fetch_jwt_concurrently_superbot_style (chat : Z)
    (accounts : list json) (api_url : string)
  : M (list json * Z * Z * Z) :=
  let total_potential := Z.of_nat (length accounts) in
  progress_msg <-
    try_except
      (m <- send_message chat
              ("⏳ Starting JWT generation for " +:+ str_int total_potential
               +:+ " accounts...") ;;
       ret (Some m))
      (fun _ => ret None) ;;
  sub <- submit_all accounts api_url ;;
  let '(total_to_process, futures) := (sub : Z * list future) in
  st <- for_each (as_completed futures) (mkJwt [] 0 0 [] 0)
          (collect chat progress_msg total_to_process) ;;
  let done_msg :=
    "✅ JWT Processing Complete for " +:+ str_int total_to_process
    +:+ " accounts." in
  match progress_msg with
  | Some ref =>
      except_api (edit_message_text done_msg chat ref)
                 (send_message chat done_msg ;; ret tt)
  | None => ret tt
  end ;;
  (if fail_count st >? 0 then
     let fail_summary :=
       "⚠️ JWT Generation Failures:" +:+ nl +:+
       String.concat nl
         ((fun rc : option string * Z =>
             "- " +:+ reason_str rc.1 +:+ ": " +:+ str_int rc.2 +:+ " times")
            <$> failed_reasons st) in
     try_except (send_message chat fail_summary ;; ret tt) (fun _ => ret tt)
   else ret tt) ;;
  ret (tokens_list st, success_count st, fail_count st, total_to_process).

(** *** The configuration store *)

(** [self.settings.setdefault(chat_id, {})] *)
Definition _get_config (chat : Z) : M config :=
  w <- get_world ;;
  match settings w !! chat with
  | Some c => ret c
  | None => set_settings (<[chat := empty_config]> (settings w)) ;;
            ret empty_config
  end.

(** [config[k]]: [KeyError] when the key is absent. *)
Definition subscript {A} (k : string) (o : option A) : M A :=
  match o with
  | Some a => ret a
  | None => raise (KeyError k)
  end.

(** [_check_config_complete]: each of the seven keys present and truthy. *)
Definition _check_config_complete (chat : Z) : M bool :=
  c <- _get_config chat ;;
  ret (str_truthy (jwt_api c) && str_truthy (like_api c)
       && list_truthy (guest_accounts c) && str_truthy (github_token c)
       && str_truthy (github_repo c) && str_truthy (github_file_path c)
       && list_truthy (target_uids c)).

(** *** GitHub, as a versioned file store

    Unless the environment injects a fault, a call is answered by the store:
    [get_contents] raises [UnknownObjectException] for an absent file,
    [update_file] writes when the [sha] it is given is the current one, and
    [create_file] writes when the file is absent; a write gives the file a
    new [sha]. *)
Definition gh_call (e : event) : M unit :=
  log e ;;
  w <- get_world ;;
  match gh env (trace w) with
  | Some x => raise x
  | None => ret tt
  end.

Definition get_contents (repo path : string) : M (string * nat) :=
  gh_call (EGhGetContents repo path) ;;
  w <- get_world ;;
  match store w !! (repo, path) with
  | Some f => ret f
  | None => raise (UnknownObjectException "404 Not Found")
  end.

Definition update_file (repo path content : string) (sha : nat) : M unit :=
  gh_call (EGhUpdate repo path content sha) ;;
  w <- get_world ;;
  match store w !! (repo, path) with
  | Some (_, cur) =>
      if decide (cur = sha)
      then set_store (<[(repo, path) := (content, S cur)]> (store w))
      else raise (OtherException "409 Conflict")
  | None => raise (OtherException "409 Conflict")
  end.

Definition create_file (repo path content : string) : M unit :=
  gh_call (EGhCreate repo path content) ;;
  w <- get_world ;;
  match store w !! (repo, path) with
  | Some _ => raise (OtherException "422 Unprocessable Entity")
  | None => set_store (<[(repo, path) := (content, O)]> (store w))
  end.

(** Lines 650-660: the value left in [github_status_message]. *)
Definition github_update (c : config) (token_dicts : list json) : M string :=
  token <- subscript "github_token" (github_token c) ;;
  repo <- subscript "github_repo" (github_repo c) ;;
  gh_call (EGhRepo token repo) ;;
  file_path <- subscript "github_file_path" (github_file_path c) ;;
  let new_content := json_dumps env token_dicts in
  try_except
    (file_obj <- get_contents repo file_path ;;
     if negb (String.eqb file_obj.1 new_content) then
       update_file repo file_path new_content file_obj.2 ;;
       ret "Updated"
     else ret "Unchanged")
    (fun e =>
       match e with
       | UnknownObjectException _ =>
           create_file repo file_path new_content ;;
           ret "Created"
       | _ => raise e
       end).

(** *** Step 3: the likes (lines 682-714) *)

Definition sentinel : string := "Failed to retrieve initial player info.".

(** The notice of line 693 and the report line of line 713. *)
Definition retry_notice (uid : string) : string :=
  "⚠️ Error for UID " +:+ uid
  +:+ ": 'Failed to retrieve...'. Waiting 2 minutes to retry.".

Definition response_line (uid response_text : string) : string :=
  "<b>UID " +:+ uid +:+ ":</b>" +:+ nl +:+ "<pre>" +:+ response_text
  +:+ "</pre>".

Definition like_get (like_api_url uid : string) : M response :=
  log (ELikeGet like_api_url uid) ;;
  http_answer.

Record like_state : Type := mkLike {
  like_success : Z;
  like_fail : Z;
  all_like_responses : list string
}.

(** The retry block, lines 690-700: the [response] and [response_text] it
    leaves behind. *)
Definition retry_logic (chat : Z) (like_api_url uid : string)
    (resp : response) : M (response * string) :=
  try_except
    (error_data <- response_json resp ;;
     trigger <-
       (if negb (status_code resp =? 200) then
          err <- py_get error_data "error" ;;
          ret (eq_str err sentinel)
        else ret false) ;;
     if (trigger : bool) then
       send_message chat (retry_notice uid) ;;
       sleep 120 ;;
       resp2 <- like_get like_api_url uid ;;
       ret (resp2, text resp2)
     else ret (resp, text resp))
    (fun _ => ret (resp, text resp)).

(** The body of [for uid in target_uids]. *)
Definition like_one (chat : Z) (like_api_url : string)
    (st : like_state) (uid : string) : M like_state :=
  r <- try_except
         (resp <- like_get like_api_url uid ;;
          rt <- retry_logic chat like_api_url uid resp ;;
          let '(resp', response_text) := (rt : response * string) in
          if status_code resp' =? 200
          then ret (like_success st + 1, like_fail st, response_text)
          else ret (like_success st, like_fail st + 1, response_text))
         (fun e =>
            ret (like_success st, like_fail st + 1,
                 "Request Error: " +:+ exn_str e)) ;;
  let '(ok, bad, response_text) := (r : Z * Z * string) in
  let line := response_line uid response_text in
  sleep 1 ;;
  ret (mkLike ok bad (all_like_responses st ++ [line])).

(** Lines 717-730: the responses, in messages of at most about 4000
    characters. *)
Definition send_responses (chat : Z) (responses : list string) : M unit :=
  match responses with
  | [] => ret tt
  | _ :: _ =>
      send_message chat "📊 <b>Step 3/3 Results (Exact Responses):</b>" ;;
      current_message <-
        for_each responses ""
          (fun cur resp_line =>
             if (4000 <? py_len cur + py_len resp_line)%nat
             then send_message chat cur ;; ret resp_line
             else ret (cur +:+ nl +:+ resp_line)) ;;
      if negb (String.eqb current_message "")
      then send_message chat current_message ;; ret tt
      else ret tt
  end.

(** *** The messages of a run *)

Definition msg_step1 : string := "<b>Task Step 1/3: Generating JWTs...</b>".

Definition jwt_summary (jwt_total jwt_success jwt_fail : Z) : string :=
  "📊 <b>Step 1/3 Result:</b>" +:+ nl +:+ "Processed: "
  +:+ str_int jwt_total +:+ ", Generated: " +:+ str_int jwt_success
  +:+ ", Failed: " +:+ str_int jwt_fail.

Definition msg_step2 : string := "<b>Task Step 2/3: Updating GitHub...</b>".

Definition msg_wait : string :=
  "ℹ️ Waiting 60 seconds for GitHub to update before sending likes...".

Definition msg_step3 : string := "<b>Task Step 3/3: Sending Likes...</b>".

Definition msg_no_accounts : string :=
  "❌ Guest Accounts not set. Task cancelled.".

Definition msg_no_tokens : string := "❌ No tokens generated. Task cancelled.".

Definition msg_github_failed (e : exn) : string :=
  "❌ <b>Step 2/3 Error:</b> GitHub update failed: " +:+ exn_str e.

Definition final_summary (jwt_success jwt_total : Z) (status : string)
    (like_ok like_bad : Z) : string :=
  "🎉 <b>Task Complete!</b>" +:+ nl +:+
  "JWTs: " +:+ str_int jwt_success +:+ "/" +:+ str_int jwt_total +:+ " ok"
  +:+ nl +:+
  "GitHub: " +:+ status +:+ nl +:+
  "Likes: " +:+ str_int like_ok +:+ " success, " +:+ str_int like_bad
  +:+ " fail".

Definition msg_failed (e : exn) : string :=
  "❌ <b>Task Failed Unexpectedly!</b>" +:+ nl +:+ "<pre>" +:+ exn_str e
  +:+ "</pre>".

(** [self.threads[chat_id]['stop_event'].set(); self.threads.pop(chat_id, None)] *)
Definition set_stop (th : thread) : thread :=
  mkThread (th_chat th) true (th_alive th).

Definition cancel_registered (chat : Z) : M unit :=
  w <- get_world ;;
  match threads w !! chat with
  | Some tid => set_registry (delete chat (threads w))
                             (alter set_stop tid (pool w))
  | None => ret tt
  end.

(** *** [_run_task_logic] (lines 626-743) *)

(** Step 3 and the final summary, lines 673-739. *)
Definition send_likes (chat : Z) (c : config) (jwt_success jwt_total : Z)
    (github_status_message : string) : M unit :=
  send_message chat "<b>Task Step 3/3: Sending Likes...</b>" ;;
  like_api_url <- subscript "like_api" (like_api c) ;;
  let targets := default [] (target_uids c) in
  st <- match targets with
        | [] => send_message chat "⚠️ No Target UIDs set. Skipping likes." ;;
                ret (mkLike 0 0 [])
        | _ :: _ => for_each targets (mkLike 0 0 []) (like_one chat like_api_url)
        end ;;
  send_responses chat (all_like_responses st) ;;
  send_message chat
    (final_summary jwt_success jwt_total github_status_message
       (like_success st) (like_fail st)) ;;
  ret tt.

(** Step 2 inside its [try], lines 650-661: the update and the notice that
    it is complete. *)
Definition publish (chat : Z) (c : config) (token_dicts : list json)
  : M string :=
  status <- github_update c token_dicts ;;
  send_message chat
    ("✅ <b>Step 2/3 Complete:</b> GitHub status: " +:+ status +:+ ".") ;;
  ret status.

(** What follows the [try] of step 2, lines 662-739: the error notice and
    [return], or the wait and step 3. *)
Definition after_publish (chat : Z) (c : config) (jwt_success jwt_total : Z)
    (published : result string) : M unit :=
  match published with
  | Raise e => send_message chat (msg_github_failed e) ;; ret tt
  | Ok github_status_message =>
      send_message chat msg_wait ;;
      sleep 60 ;;
      send_likes chat c jwt_success jwt_total github_status_message
  end.

(** From step 2 on, lines 647-739. *)
Definition from_step2 (chat : Z) (c : config) (token_dicts : list json)
    (jwt_success jwt_total : Z) : M unit :=
  send_message chat msg_step2 ;;
  published <- capture (publish chat c token_dicts) ;;
  after_publish chat c jwt_success jwt_total published.

(** From step 1 on, lines 634-739. *)
Definition from_step1 (chat : Z) (c : config) : M unit :=
  send_message chat msg_step1 ;;
  let accounts := default [] (guest_accounts c) in
  match accounts with
  | [] => send_message chat msg_no_accounts ;; ret tt
  | _ :: _ =>
      api_url <- subscript "jwt_api" (jwt_api c) ;;
      r <- _fetch_jwt_concurrently_superbot_style chat accounts api_url ;;
      let '(token_dicts, jwt_success, jwt_fail, jwt_total) :=
        (r : list json * Z * Z * Z) in
      send_message chat (jwt_summary jwt_total jwt_success jwt_fail) ;;
      match token_dicts with
      | [] => send_message chat msg_no_tokens ;; ret tt
      | _ :: _ => from_step2 chat c token_dicts jwt_success jwt_total
      end
  end.

(** The [try] body, lines 628-739. *)
Definition task_body (chat : Z) : M unit :=
  c <- _get_config chat ;;
  if negb (config_truthy c) then ret tt else from_step1 chat c.

Definition _run_task_logic (chat : Z) (is_manual_run : bool) : M unit :=
  try_except (task_body chat)
    (fun e =>
       send_message chat (msg_failed e) ;;
       if negb is_manual_run then cancel_registered chat else ret tt).

(** *** The controls (lines 513-534) *)

Definition spawn (chat : Z) : M unit :=
  w <- get_world ;;
  set_registry (<[chat := length (pool w)]> (threads w))
               (pool w ++ [mkThread chat false true]).

Definition start_liker_task (chat : Z) : M unit :=
  complete <- _check_config_complete chat ;;
  if negb complete then
    send_message chat "❌ All 6 Liker settings must be completed first." ;;
    ret tt
  else
    w <- get_world ;;
    match threads w !! chat with
    | Some _ =>
        send_message chat "⚠️ Automatic Liker is already running." ;; ret tt
    | None =>
        spawn chat ;;
        send_message chat "▶️ <b>Automatic Liker Started.</b>" ;;
        ret tt
    end.

Definition stop_liker_task (chat : Z) : M unit :=
  w <- get_world ;;
  match threads w !! chat with
  | None => send_message chat "⏹ Automatic Liker is not running." ;; ret tt
  | Some _ =>
      send_message chat "⏹ Stopping Automatic Liker..." ;;
      cancel_registered chat
  end.

Definition run_liker_now (chat : Z) : M unit :=
  complete <- _check_config_complete chat ;;
  if negb complete then
    send_message chat "❌ All 6 Liker settings must be completed first." ;;
    ret tt
  else
    send_message chat "🧪 Running the Liker task once now..." ;;
    (* the run happens in a thread that is not kept in self.threads; what it
       raises ends that thread *)
    capture (_run_task_logic chat true) ;;
    ret tt.

(** *** [_task_loop] (lines 611-624), one iteration at a time *)

Definition set_dead (th : thread) : thread :=
  mkThread (th_chat th) (th_stop th) false.

(** The thread [tid] has returned, or died of an exception. *)
Definition thread_ends (tid : nat) : M unit :=
  w <- get_world ;;
  set_registry (threads w) (alter set_dead tid (pool w)).

(** Lines 613-616: the two notices around one run; an exception that
    escapes them ends the thread. *)
Definition task_cycle (tid : nat) (chat : Z) : M unit :=
  r <- capture
         (send_message chat "ℹ️ 24-hour cycle starting..." ;;
          _run_task_logic chat false ;;
          send_message chat "ℹ️ Cycle complete. Waiting 24 hours..." ;;
          ret tt) ;;
  match r with
  | Ok _ => ret tt
  | Raise _ => thread_ends tid
  end.

(** Line 624: the loop has seen its stop event. *)
Definition task_exit (tid : nat) (chat : Z) : M unit :=
  capture (send_message chat "ℹ️ Automatic Liker thread stopped.") ;;
  thread_ends tid.

(** ** Readings of the code used in the statements *)

(** The URL of line 540 for a dict account. *)
Definition full_url_of (d : dict) (api_url : string) : string :=
  api_url +:+ "?uid=" +:+ py_str env (default JNull (dict_lookup "uid" d))
          +:+ "&password="
          +:+ py_str env (default JNull (dict_lookup "password" d)).

(** Both fields of the account are present and truthy. *)
Definition has_credentials (d : dict) : bool :=
  truthy (default JNull (dict_lookup "uid" d))
  && truthy (default JNull (dict_lookup "password" d)).

(** The token the two accepted body shapes carry, if any: the [token] field
    of an object, or of the object that is the first element of an array. *)
Definition token_of (v : json) : option json :=
  match v with
  | JDict d => dict_lookup "token" d
  | JList (JDict d :: _) => dict_lookup "token" d
  | _ => None
  end.

Definition snippet (v : json) : string :=
  py_prefix 100 (py_str env v).

(** What the fetch makes of the answer of [requests.get]. *)
Definition outcome_of (a : result response) : fetch_result :=
  match a with
  | Ok r =>
      if status_code r =? 200 then
        match parsed r with
        | JsonBody v =>
            match token_of v with
            | Some t =>
                if truthy t then (Some (JDict [("token", t)]), None)
                else (None, Some ("Token key/format invalid: " +:+ snippet v))
            | None => (None, Some ("Token key/format invalid: " +:+ snippet v))
            end
        | NotJson err => (None, Some ("General Error: " +:+ err))
        end
      else (None, Some ("API failed (Status: " +:+ str_int (status_code r)
                        +:+ ")"))
  | Raise (Timeout _) => (None, Some "Timeout (60s)")
  | Raise (ConnectionError true _) => (None, Some "Connection Reset by Server")
  | Raise (ConnectionError false m) => (None, Some ("Connection Error: " +:+ m))
  | Raise e => (None, Some ("General Error: " +:+ exn_str e))
  end.


(** The answer has a status other than 200 and a body that parses as a JSON
    object whose [error] field is the string [msg]. *)
Definition error_is (msg : string) (r : response) : bool :=
  negb (status_code r =? 200)
  && match parsed r with
     | JsonBody (JDict d) => eq_str (default JNull (dict_lookup "error" d)) msg
     | _ => false
     end.

(** The first answer to a like request calls for the retry. *)
Definition retry_triggered (a : result response) : bool :=
  match a with
  | Ok r => error_is sentinel r
  | Raise _ => false
  end.

(** The configuration [_get_config] hands to a run. *)
Definition config_of (chat : Z) (w : World) : config :=
  default empty_config (settings w !! chat).

(** An exception the environment's Telegram raised on some call. *)
Definition from_telegram (e : exn) : Prop := exists h, tg env h = Some e.

(** A future whose worker returned. *)
Definition finished (fu : future) : Prop := exists res, fu.2 = Ok res.

(** What the loop keeps true: every future still to come is finished, each
    one already seen was counted once, and every success left one token. *)
Definition collect_inv (n : Z) (rest : list future) (st : jwt_state) : Prop :=
  Forall finished rest
  /\ success_count st + fail_count st + Z.of_nat (length rest) = n
  /\ Z.of_nat (length (tokens_list st)) = success_count st.

End Bot.

(** ** Concrete environments for the examples

    A rendering of [str] and of [json.dumps(_, indent=4)] that is Python's on
    the values the examples use: strings without quotes or escapes, ints,
    booleans, [None], and lists and dicts of these. *)

Definition dq : string := String (Ascii.ascii_of_nat 34) "".

Fixpoint example_repr (v : json) : string :=
  match v with
  | JNull => "None"
  | JBool true => "True"
  | JBool false => "False"
  | JInt n => str_int n
  | JFloat _ => "nan"
  | JStr s => "'" +:+ s +:+ "'"
  | JList l => "[" +:+ String.concat ", " (map example_repr l) +:+ "]"
  | JDict d =>
      "{" +:+ String.concat ", "
                (map (fun kv => "'" +:+ fst kv +:+ "': " +:+ example_repr (snd kv)) d)
      +:+ "}"
  end.

Definition example_str (v : json) : string :=
  match v with
  | JStr s => s
  | _ => example_repr v
  end.

Fixpoint spaces (n : nat) : string :=
  match n with
  | O => ""
  | S n' => " " +:+ spaces n'
  end.

Fixpoint dumps_at (ind : nat) (v : json) : string :=
  match v with
  | JNull => "null"
  | JBool true => "true"
  | JBool false => "false"
  | JInt n => str_int n
  | JFloat _ => "NaN"
  | JStr s => dq +:+ s +:+ dq
  | JList [] => "[]"
  | JList l =>
      "[" +:+ nl
      +:+ String.concat ("," +:+ nl)
            (map (fun x => spaces (ind + 4) +:+ dumps_at (ind + 4) x) l)
      +:+ nl +:+ spaces ind +:+ "]"
  | JDict [] => "{}"
  | JDict d =>
      "{" +:+ nl
      +:+ String.concat ("," +:+ nl)
            (map (fun kv => spaces (ind + 4) +:+ dq +:+ fst kv +:+ dq +:+ ": "
                            +:+ dumps_at (ind + 4) (snd kv)) d)
      +:+ nl +:+ spaces ind +:+ "}"
  end.

Definition example_dumps (l : list json) : string := dumps_at 0 (JList l).

(** An environment from the behaviour of the three services; futures finish
    in submission order. *)
Definition example_env (tg : list event -> option exn)
    (web : list event -> result response) (gh : list event -> option exn)
  : Env :=
  mkEnv example_str example_dumps tg web gh (fun i => i).

(** Telegram and GitHub never fail and every request gets the answer [a]. *)
Definition answering (a : result response) : Env :=
  example_env (fun _ => None) (fun _ => a) (fun _ => None).

Definition empty_world : World := mkWorld ∅ ∅ [] ∅ [].

(** [{"uid": "1001", "password": "pw"}] *)
Definition account1 : dict := [("uid", JStr "1001"); ("password", JStr "pw")].

(** Three credentials, each missing its [password]. *)
Definition no_secret_accounts : list json :=
  [JDict [("uid", JStr "1001")]; JDict [("uid", JStr "1002")];
   JDict [("uid", JStr "1003")]].

(** A complete configuration for chat 7. *)
Definition example_config (accounts : list json) : config :=
  mkConfig (Some "https://jwt.example/api") (Some "https://like.example/like")
           (Some accounts) (Some "ghp_token") (Some "owner/repo")
           (Some "tokens.json") (Some ["42"]).

Definition world_with (c : config) : World :=
  mkWorld {[7 := c]} ∅ [] ∅ [].

(** Two answers: a timeout, and a 200 whose body is
    [{"token": ""}]. *)
Definition timed_out : result response := Raise (Timeout "Read timed out.").

Definition empty_token_body : json := JDict [("token", JStr "")].

Definition empty_token_answer : response :=
  mkResponse 200 ("{" +:+ dq +:+ "token" +:+ dq +:+ ": " +:+ dq +:+ dq +:+ "}")
             (JsonBody empty_token_body).

(** A 500 whose body is [{"error": msg}]. *)
Definition error_answer (msg : string) : response :=
  mkResponse 500
    ("{" +:+ dq +:+ "error" +:+ dq +:+ ": " +:+ dq +:+ msg +:+ dq +:+ "}")
    (JsonBody (JDict [("error", JStr msg)])).

(** The first like request gets the sentinel error, any later one times
    out. *)
Definition sentinel_then_timeout : Env :=
  example_env (fun _ => None)
    (fun h => match h with
              | [_] => Ok (error_answer sentinel)
              | _ => Raise (Timeout "Read timed out.")
              end)
    (fun _ => None).

(** The token set holding the one token [t]. *)
Definition one_token (t : string) : list json := [JDict [("token", JStr t)]].

(** A complete configuration, and what three handler calls in a row make of
    it: start, stop, start. *)
Definition configured : World := world_with (example_config [JDict account1]).

Definition restarted : World :=
  let env := answering timed_out in
  (start_liker_task env 7
     (stop_liker_task env 7 (start_liker_task env 7 configured).2).2).2.


(** A 200 whose body is [{"token": "abc"}]. *)
Definition token_answer : response :=
  mkResponse 200
    ("{" +:+ dq +:+ "token" +:+ dq +:+ ": " +:+ dq +:+ "abc" +:+ dq +:+ "}")
    (JsonBody (JDict [("token", JStr "abc")])).

(** Two credentials with both fields and one missing its secret. *)
Definition mixed_accounts : list json :=
  [JDict account1; JDict [("uid", JStr "1002")];
   JDict [("uid", JStr "1003"); ("password", JStr "pw3")]].

(** ** Relations between the world before and after a computation *)

(** [m] moves every world to one related to it by [R]. *)
Definition stays (R : relation World) {A} (m : M A) : Prop :=
  forall w, R w (m w).2.

(** From [w] to [w'] only calls satisfying [P] were made. *)
Definition only (P : event -> Prop) (w w' : World) : Prop :=
  exists evs, trace w' = trace w ++ evs /\ Forall P evs.

(** A call of the first step: a message to the chat (sent or edited) or a
    token request. *)
Definition first_step_call (e : event) : Prop :=
  match e with
  | ESend _ _ | EEdit _ _ _ | EJwtGet _ => True
  | _ => False
  end.

(** Neither a like request nor a sleep of any length. *)
Definition not_dispatch_call (e : event) : Prop :=
  match e with
  | ELikeGet _ _ | ESleep _ => False
  | _ => True
  end.

(** The run ended in its first step: it made only calls of that step, so no
    GitHub call, no like request and no sleep, and wrote no file. *)
Definition ended_in_first_step (w w' : World) : Prop :=
  only first_step_call w w' /\ store w' = store w.

(** The registry of background threads is untouched. *)
Definition same_registry (w w' : World) : Prop :=
  threads w' = threads w /\ pool w' = pool w.

(** The store after a write of [content] at version [sha]. *)
Definition written (repo path content : string) (sha : nat) (evs : list event)
    (w : World) : World :=
  mkWorld (settings w) (threads w) (pool w)
          (<[(repo, path) := (content, sha)]> (store w)) (trace w ++ evs).

(** The notices a run can end on: the two cancellations, the GitHub error,
    the final summary, and the unexpected failure. *)
Definition closing_notice (msg : string) : Prop :=
  msg = msg_no_accounts \/ msg = msg_no_tokens
  \/ (exists e, msg = msg_github_failed e)
  \/ (exists jwt_success jwt_total status like_ok like_bad,
        msg = final_summary jwt_success jwt_total status like_ok like_bad)
  \/ (exists e, msg = msg_failed e).

(** The last call recorded in [w] sent [chat] a message that satisfies [Q]. *)
Definition ends_with (chat : Z) (Q : string -> Prop) (w : World) : Prop :=
  exists before msg, trace w = before ++ [ESend chat msg] /\ Q msg.

(** [Q], or the notice of an unexpected failure. *)
Definition or_failed (Q : string -> Prop) (msg : string) : Prop :=
  Q msg \/ exists e, msg = msg_failed e.

(** The final summary of a run with these token counts and GitHub status. *)
Definition is_summary (jwt_success jwt_total : Z) (status msg : string) : Prop :=
  exists like_ok like_bad,
    msg = final_summary jwt_success jwt_total status like_ok like_bad.

(** If the outcome is a normal return, its world ends with a [Q] message. *)
Definition ends_on (chat : Z) (Q : string -> Prop) (rw : result unit * World)
  : Prop :=
  match rw with
  | (Ok _, w') => ends_with chat Q w'
  | (Raise _, _) => True
  end.

(** [P] holds of the world in which [m] returns normally. *)
Definition ok_post {A} (P : World -> Prop) (m : M A) : Prop :=
  forall w, match m w with
            | (Ok _, w') => P w'
            | (Raise _, _) => True
            end.

(** ** The scheduler as a transition system

    The steps of a serial execution: the handlers and the background threads
    take turns, a handler runs to its end, a thread runs one iteration of
    its loop (whether or not its stop event was set meanwhile: a run in
    flight is never interrupted), waits one 60-second slice, or leaves once
    its stop event is set; the setup wizard may rewrite a configuration at
    any time.  The code takes no lock on [self.threads]: what happens when
    the two updates of a start or of a cancellation are interleaved with
    other steps is the subject of [start_checks] / [start_registers] and
    [cancel_set] / [cancel_pop] below, not of this relation. *)
Inductive sched_step (env : Env) : World -> World -> Prop :=
| step_start chat w :
    sched_step env w (start_liker_task env chat w).2
| step_stop chat w :
    sched_step env w (stop_liker_task env chat w).2
| step_run_now chat w :
    sched_step env w (run_liker_now env chat w).2
| step_cycle tid th w :
    pool w !! tid = Some th -> th_alive th = true ->
    sched_step env w (task_cycle env tid (th_chat th) w).2
| step_wait tid th w :
    pool w !! tid = Some th -> th_alive th = true ->
    sched_step env w (sleep 60 w).2
| step_exit tid th w :
    pool w !! tid = Some th -> th_alive th = true -> th_stop th = true ->
    sched_step env w (task_exit env tid (th_chat th) w).2
| step_setup chat c w :
    sched_step env w
      (mkWorld (<[chat := c]> (settings w)) (threads w) (pool w) (store w)
               (trace w)).

(** No thread has been started yet. *)
Definition fresh (w : World) : Prop := threads w = ∅ /\ pool w = [].

(** Every registered thread has its stop event clear, and every thread whose
    stop event is clear is the one registered for its chat. *)
Definition registry_ok (w : World) : Prop :=
  (forall chat tid, threads w !! chat = Some tid ->
     exists th, pool w !! tid = Some th /\ th_chat th = chat
                /\ th_stop th = false)
  /\ (forall tid th, pool w !! tid = Some th -> th_stop th = false ->
        threads w !! th_chat th = Some tid).

Definition keeps_registry_ok (w w' : World) : Prop :=
  registry_ok w -> registry_ok w'.

(** *** The unlocked updates of the registry, one at a time *)

(** Lines 515-516 of [start_liker_task]: the two tests; [True] when the
    handler goes on to register a thread. *)
Definition start_checks (env : Env) (chat : Z) : M bool :=
  bind (_check_config_complete chat) (fun complete =>
  if negb complete then
    bind (send_message env chat
            "❌ All 6 Liker settings must be completed first.")
         (fun _ => ret false)
  else
    bind get_world (fun w =>
    match threads w !! chat with
    | Some _ =>
        bind (send_message env chat "⚠️ Automatic Liker is already running.")
             (fun _ => ret false)
    | None => ret true
    end)).

(** Lines 517-521: the thread is created, registered and started, and the
    chat is told. *)
Definition start_registers (env : Env) (chat : Z) : M unit :=
  bind (spawn chat) (fun _ =>
  bind (send_message env chat "▶️ <b>Automatic Liker Started.</b>")
       (fun _ => ret tt)).

(** [self.threads[chat_id]['stop_event'].set()]: the stop event of whichever
    thread is registered now. *)
Definition cancel_set (chat : Z) : M unit :=
  bind get_world (fun w =>
  match threads w !! chat with
  | Some tid => set_registry (threads w) (alter set_stop tid (pool w))
  | None => raise (KeyError (pretty chat))
  end).

(** [self.threads.pop(chat_id, None)] *)
Definition cancel_pop (chat : Z) : M unit :=
  bind get_world (fun w => set_registry (delete chat (threads w)) (pool w)).

(** A periodic run up to the first update of its failure handler (line 743):
    the notice, the test, and [set]. *)
Definition run_until_set (env : Env) (chat : Z) : M unit :=
  try_except (task_body env chat)
    (fun e =>
       bind (send_message env chat (msg_failed e)) (fun _ =>
       bind get_world (fun w =>
       match threads w !! chat with
       | Some _ => cancel_set chat
       | None => ret tt
       end))).

(** Two threads of one chat that are running with their stop events
    clear. *)
Definition two_unstopped (w : World) : Prop :=
  exists tid1 tid2 th1 th2,
    tid1 <> tid2 /\ pool w !! tid1 = Some th1 /\ pool w !! tid2 = Some th2
    /\ th_chat th1 = th_chat th2
    /\ th_stop th1 = false /\ th_stop th2 = false
    /\ th_alive th1 = true /\ th_alive th2 = true.

(** Two threads of one chat that are both running. *)
Definition two_running (w : World) : Prop :=
  exists tid1 tid2 th1 th2,
    tid1 <> tid2 /\ pool w !! tid1 = Some th1 /\ pool w !! tid2 = Some th2
    /\ th_chat th1 = th_chat th2
    /\ th_alive th1 = true /\ th_alive th2 = true.

(** ** Counting calls in a trace *)

Definition is_like_get (e : event) : bool :=
  match e with ELikeGet _ _ => true | _ => false end.

(** The one-second pause of line 714. *)
Definition is_pacing (e : event) : bool :=
  match e with ESleep secs => secs =? 1 | _ => false end.

Definition is_jwt_get (e : event) : bool :=
  match e with EJwtGet _ => true | _ => false end.

Definition is_github (e : event) : bool :=
  match e with
  | EGhRepo _ _ | EGhGetContents _ _ | EGhUpdate _ _ _ _ | EGhCreate _ _ _ =>
      true
  | _ => false
  end.

Definition count_events (p : event -> bool) (evs : list event) : nat :=
  length (List.filter p evs).

(** A message to the chat: sent, or edited. *)
Definition notification (e : event) : Prop :=
  match e with
  | ESend _ _ | EEdit _ _ _ => True
  | _ => False
  end.

(** The token a finished future contributes to [tokens_list], if any. *)
Definition token_of_future (fu : future) : option json :=
  match fu.2 with
  | Ok (Some d, _) => if truthy d then Some d else None
  | _ => None
  end.

(** The first notice of the token stage. *)
Definition msg_starting (accounts : list json) : string :=
  "⏳ Starting JWT generation for " +:+ str_int (Z.of_nat (length accounts))
  +:+ " accounts...".

(** The header of the report of step 3. *)
Definition msg_results : string :=
  "📊 <b>Step 3/3 Results (Exact Responses):</b>".

(** The body of the chunking loop, lines 722-727. *)
Definition chunk_step (env : Env) (chat : Z) (cur resp_line : string)
  : M string :=
  if (4000 <? py_len cur + py_len resp_line)%nat
  then bind (send_message env chat cur) (fun _ => ret resp_line)
  else ret (cur +:+ nl +:+ resp_line).

(** A text a chunk of the report may be: at most 4001 characters ([len]), or
    one of the report lines on its own. *)
Definition chunk_sized (responses : list string) (msg : string) : Prop :=
  (py_len msg <= 4001)%nat \/ msg ∈ responses.

(** The report lines one after the other, each behind a newline: the text
    the loop would build if it never flushed. *)
Definition glued (lines : list string) : string :=
  String.concat "" ((fun l => nl +:+ l) <$> lines).

(** A report line of 4001 characters. *)
Definition long_line : string := String.concat "" (replicate 4001 "x").

(** Futures that finish in the reverse of the order of submission, against an
    endpoint that answers the n-th call of the run with the token n. *)
Definition reversing : Env :=
  mkEnv example_str example_dumps (fun _ => None)
    (fun h => Ok (mkResponse 200 "" (JsonBody (JDict
                    [("token", JStr (str_int (Z.of_nat (length h))))]))))
    (fun _ => None) (fun i => (10 - i)%nat).

(** A chat whose thread is registered and whose configuration has
    credentials but no [jwt_api]: the run raises [KeyError] in step 1. *)
Definition scheduled_without_api : World :=
  mkWorld {[7 := mkConfig None (Some "https://like.example/like")
                    (Some [JDict account1]) (Some "ghp_token")
                    (Some "owner/repo") (Some "tokens.json") (Some ["42"])]}
          {[7 := 0%nat]} [mkThread 7 false true] ∅ [].

(** A registered thread on a complete configuration. *)
Definition scheduled : World :=
  mkWorld {[7 := example_config [JDict account1]]}
          {[7 := 0%nat]} [mkThread 7 false true] ∅ [].

(** Telegram refuses every message. *)
Definition telegram_down : Env :=
  example_env (fun _ => Some (ApiTelegramException "Forbidden"))
    (fun _ => timed_out) (fun _ => None).

(** The refusal of [start_liker_task] and [run_liker_now]. *)
Definition msg_incomplete : string :=
  "❌ All 6 Liker settings must be completed first.".

(** The configurations are as they were. *)
Definition same_settings (w w' : World) : Prop := settings w' = settings w.

(** The file [k] of the store is as it was. *)
Definition same_file (k : string * string) (w w' : World) : Prop :=
  store w' !! k = store w !! k.

(** No GitHub call was made and the store is as it was. *)
Definition unpublished (w w' : World) : Prop :=
  only (fun e => is_github e = false) w w' /\ store w' = store w.

(** ** The list of target UIDs (lines 432-446) *)

(** Line 437: [sum(1 for uid in uids if uid not in target_list and
    target_list.append(uid) is None)], as the list it leaves in
    [target_list] and the count. *)
Fixpoint add_target_uids (target_list uids : list string) (count : nat)
  : list string * nat :=
  match uids with
  | [] => (target_list, count)
  | uid :: rest =>
      if bool_decide (uid ∈ target_list)
      then add_target_uids target_list rest count
      else add_target_uids (target_list ++ [uid]) rest (S count)
  end.

(** [list.remove(x)]: the first occurrence goes. *)
Fixpoint list_remove_first (x : string) (l : list string) : list string :=
  match l with
  | [] => []
  | y :: l' => if String.eqb y x then l' else y :: list_remove_first x l'
  end.

(** Lines 441-444: the list after the removal, or [None] for the notice
    that the UID is not in the list. *)
Definition remove_target_uid (uid_to_remove : string)
    (target_list : list string) : option (list string) :=
  if bool_decide (uid_to_remove ∈ target_list)
  then Some (list_remove_first uid_to_remove target_list)
  else None.

(** ** The files of the converter (lines 857-869) *)

(** [range(0, stop, step)] for a positive [step]: its length and its
    elements as CPython computes them. *)
Definition range_step (stop step : nat) : list nat :=
  (fun k => k * step)%nat <$> seq 0 ((stop + step - 1) / step).

Definition chunk_size : nat := 100.

(** One document: its file name, its accounts and its caption. *)
Record document : Type := mkDocument {
  file_name : string;
  chunk : list json;
  caption : string
}.

(** The body of the loop of line 859 at index [i]. *)
Definition conversion_file (accounts : list json) (i : nat) : document :=
  let total_accounts := length accounts in
  let chunk := take chunk_size (drop i accounts) in
  mkDocument
    (if (chunk_size <? total_accounts)%nat
     then "accounts_" +:+ str_int (Z.of_nat (i / chunk_size)) +:+ ".json"
     else "accounts.json")
    chunk
    ("Here are " +:+ str_int (Z.of_nat (length chunk)) +:+ " accounts (Part "
     +:+ str_int (Z.of_nat (i / chunk_size) + 1) +:+ ").").

(** The documents the loop sends, in order. *)
Definition conversion_files (accounts : list json) : list document :=
  conversion_file accounts <$> range_step (length accounts) chunk_size.

(** Telegram refuses the notice that opens step 1 and takes every other
    message. *)
Definition step1_refused : Env :=
  example_env
    (fun h => match last h with
              | Some (ESend _ msg) =>
                  if String.eqb msg msg_step1
                  then Some (ApiTelegramException "Bad Request") else None
              | _ => None
              end)
    (fun _ => timed_out) (fun _ => None).

(** A report line of 1500 two-byte characters. *)
Definition accented_line : string := String.concat "" (replicate 1500 "é").

(** * Properties *)

(** ** Unfolding the monad *)

Ltac unfold_m :=
  unfold capture, reraise, send_message, edit_message_text, sleep,
    http_answer, response_json, py_get, subscript, gh_call, like_get,
    except_api, try_except, bind, ret, raise, log, emit, get_world,
    set_settings, set_registry, set_store in *;
  cbn [fst snd trace settings threads pool store] in *.

(** ** The outside calls, by cases on the environment's answer *)

Section Calls.

Context (env : Env).

Lemma send_message_run chat msg w :
  send_message env chat msg w =
  let w1 := emit (ESend chat msg) w in
  match tg env (trace w1) with
  | None => (Ok (length (trace w1)), w1)
  | Some e => (Raise e, w1)
  end.
Proof. unfold_m. by destruct (tg env _). Qed.

Lemma edit_message_text_run msg chat ref w :
  edit_message_text env msg chat ref w =
  let w1 := emit (EEdit chat ref msg) w in
  match tg env (trace w1) with
  | None => (Ok tt, w1)
  | Some e => (Raise e, w1)
  end.
Proof. unfold_m. by destruct (tg env _). Qed.

Lemma like_get_run url uid w :
  like_get env url uid w =
  let w1 := emit (ELikeGet url uid) w in
  match web env (trace w1) with
  | Ok r => (Ok r, w1)
  | Raise e => (Raise e, w1)
  end.
Proof. unfold_m. cbn. by destruct (web env _). Qed.

Lemma bind_run {A B} (m : M A) (f : A -> M B) w :
  bind m f w =
  match m w with
  | (Ok a, w') => f a w'
  | (Raise e, w') => (Raise e, w')
  end.
Proof. reflexivity. Qed.

End Calls.

(** ** The single token fetch *)

Section FetchSingle.

Context (env : Env).

Lemma dict_mem_lookup k d :
  (if dict_mem k d then dict_lookup k d else None) = dict_lookup k d.
Proof. unfold dict_mem. by destruct (dict_lookup k d). Qed.

(** For an account with credentials the fetch issues exactly one request and
    returns what [outcome_of] reads off its answer. *)
Lemma fetch_single_run d api_url w :
  has_credentials d = true ->
  _fetch_single_jwt_token env (JDict d) api_url w =
  let w1 := emit (EJwtGet (full_url_of env d api_url)) w in
  (Ok (outcome_of env (web env (trace w1))), w1).
Proof.
  unfold has_credentials. intros [Hu Hp]%andb_prop.
  unfold _fetch_single_jwt_token, full_url_of. unfold_m.
  rewrite Hu, Hp. cbn.
  destruct (web env _) as [r|e]; cbn.
  - destruct (status_code r =? 200); [|done].
    destruct (parsed r) as [v|err]; cbn; [|done].
    destruct v as [| | | | |l|d']; cbn; try done.
    + destruct l as [|[| | | | | |d0] l]; cbn; try done.
      rewrite dict_mem_lookup. by destruct (dict_lookup "token" d0) as [t|]; cbn;
        [destruct (truthy t)|].
    + rewrite dict_mem_lookup. by destruct (dict_lookup "token" d') as [t|]; cbn;
        [destruct (truthy t)|].
  - by destruct e as [| [] | | | | | |].
Qed.

(** An account missing a field is refused without a request. *)
Lemma fetch_single_missing d api_url w :
  has_credentials d = false ->
  _fetch_single_jwt_token env (JDict d) api_url w =
  (Ok (None, Some "Missing uid or password"), w).
Proof.
  unfold has_credentials. intros H.
  unfold _fetch_single_jwt_token. unfold_m.
  destruct (truthy (default JNull (dict_lookup "uid" d))); cbn in *; [|done].
  by rewrite H.
Qed.

End FetchSingle.

Section FetchSingleClaims.

Context (env : Env).

(** C6 (as the code has it): a fetch whose request times out records exactly
    the reason "Timeout (60s)"; a connection reset records exactly
    "Connection Reset by Server"; any other connection error records
    "Connection Error: <error>", which is never the reset reason. *)
Theorem fetch_transport_failure_reasons (d : dict) (api_url : string) (w : World) :
  has_credentials d = true ->
  let answer := web env (trace w ++ [EJwtGet (full_url_of env d api_url)]) in
  let res := (_fetch_single_jwt_token env (JDict d) api_url w).1 in
  (forall m, answer = Raise (Timeout m) ->
             res = Ok (None, Some "Timeout (60s)")) /\
  (forall m, answer = Raise (ConnectionError true m) ->
             res = Ok (None, Some "Connection Reset by Server")) /\
  (forall m, answer = Raise (ConnectionError false m) ->
             res = Ok (None, Some ("Connection Error: " +:+ m)) /\
             "Connection Error: " +:+ m <> "Connection Reset by Server").
Proof.
  intros Hc answer res. subst answer res.
  rewrite (fetch_single_run env d api_url w Hc). cbn.
  split; [by intros m -> |]. split; [by intros m -> |].
  intros m ->. split; [done | cbn; discriminate].
Qed.

(** C8 (as the code has it): on an answer with status 200 the fetch succeeds,
    yielding the token, exactly when the body is JSON of one of the two shapes
    and the [token] value is truthy; a JSON body that does not yield a truthy
    token gives "Token key/format invalid: " followed by the first 100
    characters of [str(body)]; a body that is not JSON gives
    "General Error: <error>"; and any other status gives
    "API failed (Status: <code>)". *)
Theorem fetch_response_classification (d : dict) (api_url : string) (w : World)
    (r : response) :
  has_credentials d = true ->
  web env (trace w ++ [EJwtGet (full_url_of env d api_url)]) = Ok r ->
  let res := (_fetch_single_jwt_token env (JDict d) api_url w).1 in
  ((exists tok, res = Ok (Some tok, None)) <->
   status_code r = 200 /\
   exists v t, parsed r = JsonBody v /\ token_of v = Some t /\ truthy t = true) /\
  (forall v t, status_code r = 200 -> parsed r = JsonBody v ->
     token_of v = Some t -> truthy t = true ->
     res = Ok (Some (JDict [("token", t)]), None)) /\
  (forall v, status_code r = 200 -> parsed r = JsonBody v ->
     (forall t, token_of v = Some t -> truthy t = false) ->
     res = Ok (None, Some ("Token key/format invalid: " +:+ snippet env v))) /\
  (forall err, status_code r = 200 -> parsed r = NotJson err ->
     res = Ok (None, Some ("General Error: " +:+ err))) /\
  (status_code r <> 200 ->
     res = Ok (None, Some ("API failed (Status: " +:+ str_int (status_code r)
                           +:+ ")"))).
Proof.
  intros Hc Ha res. subst res.
  rewrite (fetch_single_run env d api_url w Hc). cbn. rewrite Ha. cbn.
  destruct (Z.eqb_spec (status_code r) 200) as [Hs|Hs].
  - split.
    { split.
      - intros [tok Htok]. split; [done|].
        destruct (parsed r) as [v|err]; [|done].
        exists v. destruct (token_of v) as [t|] eqn:Ht; [|done].
        exists t. by destruct (truthy t).
      - intros (_ & v & t & Hp & Ht & Htr). rewrite Hp, Ht, Htr. eauto. }
    split. { intros v t _ Hp Ht Htr. by rewrite Hp, Ht, Htr. }
    split.
    { intros v _ Hp Hf. rewrite Hp. destruct (token_of v) as [t|]; [|done].
      by rewrite (Hf t eq_refl). }
    split; [|done]. intros err _ Hp. by rewrite Hp.
  - split.
    { split; [by intros [tok Htok] | by intros [? _]]. }
    done.
Qed.

(** C9: on a 200 answer whose body has one of the two shapes but whose
    [token] value is falsy, the fetch fails with the reason
    "Token key/format invalid: <snippet>" and produces no token. *)
Theorem fetch_falsy_token_is_failure (d : dict) (api_url : string) (w : World)
    (r : response) (v t : json) :
  has_credentials d = true ->
  web env (trace w ++ [EJwtGet (full_url_of env d api_url)]) = Ok r ->
  status_code r = 200 ->
  parsed r = JsonBody v ->
  token_of v = Some t ->
  truthy t = false ->
  (_fetch_single_jwt_token env (JDict d) api_url w).1 =
  Ok (None, Some ("Token key/format invalid: " +:+ snippet env v)).
Proof.
  intros Hc Ha Hs Hp Ht Hf.
  rewrite (fetch_single_run env d api_url w Hc). cbn.
  rewrite Ha. cbn. rewrite Hs, Hp. cbn. by rewrite Ht, Hf.
Qed.

End FetchSingleClaims.

Lemma fetch_transport_failure_reasons_witness :
  (_fetch_single_jwt_token (answering timed_out) (JDict account1) "https://jwt.example/api"
     empty_world).1 = Ok (None, Some "Timeout (60s)").
Proof.
  apply (proj1 (fetch_transport_failure_reasons (answering timed_out) account1
                  "https://jwt.example/api" empty_world eq_refl)
           "Read timed out.").
  reflexivity.
Defined.

(** C6 as stated fails: the reason recorded for a timeout is not the string
    "Timeout". *)
Lemma timeout_reason_is_not_Timeout :
  (_fetch_single_jwt_token (answering timed_out) (JDict account1) "https://jwt.example/api"
     empty_world).1 = Ok (None, Some "Timeout (60s)")
  /\ "Timeout (60s)" <> "Timeout".
Proof. split; [vm_compute; reflexivity | discriminate]. Qed.

Lemma fetch_response_classification_witness :
  (_fetch_single_jwt_token (answering (Ok empty_token_answer)) (JDict account1)
     "https://jwt.example/api" empty_world).1 =
  Ok (None, Some ("Token key/format invalid: "
                  +:+ snippet (answering (Ok empty_token_answer)) empty_token_body)).
Proof.
  apply (proj1 (proj2 (proj2
           (fetch_response_classification (answering (Ok empty_token_answer))
              account1 "https://jwt.example/api" empty_world empty_token_answer
              eq_refl eq_refl)))
           empty_token_body eq_refl eq_refl).
  intros t [= <-]. reflexivity.
Defined.

(** C8 as stated fails: a 200 body that is an object with a [token] field,
    [{"token": ""}], does not make the fetch succeed. *)
Lemma token_field_present_yet_failure :
  token_of empty_token_body = Some (JStr "")
  /\ (_fetch_single_jwt_token (answering (Ok empty_token_answer)) (JDict account1)
        "https://jwt.example/api" empty_world).1 =
     Ok (None, Some "Token key/format invalid: {'token': ''}").
Proof. split; vm_compute; reflexivity. Qed.

Lemma fetch_falsy_token_is_failure_witness :
  (_fetch_single_jwt_token (answering (Ok empty_token_answer)) (JDict account1)
     "https://jwt.example/api" empty_world).1 =
  Ok (None, Some ("Token key/format invalid: "
                  +:+ snippet (answering (Ok empty_token_answer)) empty_token_body)).
Proof.
  apply (fetch_falsy_token_is_failure (answering (Ok empty_token_answer)) account1
           "https://jwt.example/api" empty_world empty_token_answer
           empty_token_body (JStr "")); reflexivity.
Defined.

(** ** Framing: what every step of the pipeline preserves *)

Section Frame.

Context (env : Env) (R : relation World) `{!PreOrder R} (good : event -> Prop).

Hypothesis R_emit : forall e w, good e -> R w (emit e w).
Hypothesis R_settings :
  forall s w, R w (mkWorld s (threads w) (pool w) (store w) (trace w)).
Hypothesis R_store :
  forall s w, R w (mkWorld (settings w) (threads w) (pool w) s (trace w)).

Lemma stays_ret {A} (a : A) : stays R (ret a).
Proof. intros w. reflexivity. Qed.

Lemma stays_raise {A} (e : exn) : stays R (raise (A:=A) e).
Proof. intros w. reflexivity. Qed.

Lemma stays_get_world : stays R get_world.
Proof. intros w. reflexivity. Qed.

Lemma stays_bind {A B} (m : M A) (f : A -> M B) :
  stays R m -> (forall a, stays R (f a)) -> stays R (bind m f).
Proof.
  intros Hm Hf w. rewrite bind_run. specialize (Hm w).
  destruct (m w) as [[a|e] w']; [|done].
  cbn in Hm. etrans; [done|]. apply Hf.
Qed.

Lemma stays_try_except {A} (m : M A) (h : exn -> M A) :
  stays R m -> (forall e, stays R (h e)) -> stays R (try_except m h).
Proof.
  intros Hm Hh w. unfold try_except. specialize (Hm w).
  destruct (m w) as [[a|e] w']; [done|].
  cbn in Hm. etrans; [done|]. apply Hh.
Qed.

Lemma stays_capture {A} (m : M A) : stays R m -> stays R (capture m).
Proof. intros Hm w. unfold capture. specialize (Hm w). by destruct (m w). Qed.

Lemma stays_reraise {A} (r : result A) : stays R (reraise r).
Proof. destruct r; [apply stays_ret | apply stays_raise]. Qed.

Lemma stays_for_each {A S} (l : list A) (f : S -> A -> M S) :
  (forall s x, stays R (f s x)) -> forall s, stays R (for_each l s f).
Proof.
  intros Hf. induction l as [|x l IH]; intros s; cbn [for_each].
  - apply stays_ret.
  - apply stays_bind; [apply Hf | intros s'; apply IH].
Qed.

Lemma stays_log e : good e -> stays R (log e).
Proof. intros He w. by apply R_emit. Qed.

Lemma stays_set_settings s : stays R (set_settings s).
Proof. intros w. apply R_settings. Qed.

Lemma stays_set_store s : stays R (set_store s).
Proof. intros w. apply R_store. Qed.

Ltac stays_go :=
  repeat first
    [ solve [auto]
    | progress cbv zeta
    | apply stays_ret | apply stays_raise | apply stays_get_world
    | apply stays_set_settings | apply stays_set_store
    | apply stays_reraise
    | apply stays_capture
    | apply stays_bind; [|intros ?]
    | apply stays_try_except; [|intros ?]
    | apply stays_for_each; intros ? ?
    | apply stays_log; solve [auto]
    | match goal with
      | |- stays _ (match ?x with _ => _ end) => destruct x
      end ].

(** *** The first two steps and their notifications *)

Hypothesis good_send : forall chat msg, good (ESend chat msg).
Hypothesis good_edit : forall chat ref msg, good (EEdit chat ref msg).
Hypothesis good_jwt : forall url, good (EJwtGet url).
Hypothesis good_gh_repo : forall token repo, good (EGhRepo token repo).
Hypothesis good_gh_get : forall repo path, good (EGhGetContents repo path).
Hypothesis good_gh_update :
  forall repo path content sha, good (EGhUpdate repo path content sha).
Hypothesis good_gh_create :
  forall repo path content, good (EGhCreate repo path content).

Lemma stays_send_message chat msg : stays R (send_message env chat msg).
Proof. unfold send_message. stays_go. Qed.

Lemma stays_edit_message_text msg chat ref :
  stays R (edit_message_text env msg chat ref).
Proof. unfold edit_message_text. stays_go. Qed.

Lemma stays_http_answer : stays R (http_answer env).
Proof. unfold http_answer. stays_go. Qed.

Lemma stays_py_get x k : stays R (py_get x k).
Proof. unfold py_get. stays_go. Qed.

Lemma stays_subscript {A} k (o : option A) : stays R (subscript k o).
Proof. unfold subscript. stays_go. Qed.

Lemma stays_fetch_single account api_url :
  stays R (_fetch_single_jwt_token env account api_url).
Proof.
  unfold _fetch_single_jwt_token, response_json.
  pose proof stays_http_answer. pose proof stays_py_get. stays_go.
Qed.

Lemma stays_token_stage chat accounts api_url :
  stays R (_fetch_jwt_concurrently_superbot_style env chat accounts api_url).
Proof.
  pose proof stays_send_message. pose proof stays_edit_message_text.
  pose proof stays_fetch_single. pose proof stays_py_get.
  unfold _fetch_jwt_concurrently_superbot_style, submit_all, submit_one,
    collect, except_api.
  stays_go.
Qed.

Lemma stays_get_config chat : stays R (_get_config chat).
Proof. unfold _get_config. stays_go. Qed.

Lemma stays_gh_call e : good e -> stays R (gh_call env e).
Proof. intros He. unfold gh_call. stays_go. Qed.

Lemma stays_github_update c token_dicts :
  stays R (github_update env c token_dicts).
Proof.
  pose proof (@stays_subscript).
  unfold github_update, get_contents, update_file, create_file.
  stays_go; apply stays_gh_call; auto.
Qed.

Lemma stays_publish chat c token_dicts :
  stays R (publish env chat c token_dicts).
Proof.
  pose proof stays_send_message. pose proof stays_github_update.
  unfold publish. stays_go.
Qed.

(** *** The third step *)

Hypothesis good_like : forall url uid, good (ELikeGet url uid).
Hypothesis good_sleep : forall secs, good (ESleep secs).

Lemma stays_send_likes chat c jwt_success jwt_total status :
  stays R (send_likes env chat c jwt_success jwt_total status).
Proof.
  pose proof stays_send_message. pose proof (@stays_subscript).
  pose proof stays_http_answer. pose proof stays_py_get.
  unfold send_likes, send_responses, like_one, retry_logic, like_get, sleep,
    response_json.
  stays_go.
Qed.

Lemma stays_task_body chat : stays R (task_body env chat).
Proof.
  pose proof stays_send_message. pose proof (@stays_subscript).
  pose proof stays_get_config. pose proof stays_token_stage.
  pose proof stays_publish. pose proof stays_send_likes.
  unfold task_body, from_step1, from_step2, after_publish, sleep. stays_go.
Qed.

End Frame.

(** ** The token stage *)

Section TokenStage.

Context (env : Env).

(** A loop invariant carried along the list still to be processed. *)
Lemma for_each_invariant {A S} (I : list A -> S -> Prop) (E : exn -> Prop)
    (f : S -> A -> M S) :
  (forall x l s w, I (x :: l) s ->
     match f s x w with
     | (Ok s', _) => I l s'
     | (Raise e, _) => E e
     end) ->
  forall l s w, I l s ->
    match for_each l s f w with
    | (Ok s', _) => I [] s'
    | (Raise e, _) => E e
    end.
Proof.
  intros Hstep l. induction l as [|x l IH]; intros s w HI; [done|].
  cbn. rewrite bind_run. specialize (Hstep x l s w HI).
  destruct (f s x w) as [[s'|e] w']; [by apply IH | done].
Qed.

(** One account: no request and no future for an account missing a field,
    one request and one finished future otherwise. *)
Lemma submit_one_run (d : dict) api_url total futures w :
  submit_one env api_url (total, futures) (JDict d) w =
  if has_credentials d then
    let w1 := emit (EJwtGet (full_url_of env d api_url)) w in
    (Ok (total + 1,
         futures ++ [(default JNull (dict_lookup "uid" d),
                      Ok (outcome_of env (web env (trace w1))))]), w1)
  else (Ok (total, futures), w).
Proof.
  destruct (has_credentials d) eqn:Hc.
  - pose proof Hc as [Hu Hp]%andb_prop.
    unfold submit_one, py_get, capture, bind, ret. rewrite Hu, Hp.
    by rewrite (fetch_single_run env d api_url w Hc).
  - unfold has_credentials in Hc. unfold submit_one, py_get, bind, ret.
    destruct (truthy (default JNull (dict_lookup "uid" d))); [|done].
    cbn in Hc. by rewrite Hc.
Qed.

(** The submission loop over dict accounts: it cannot raise, it counts the
    accounts with credentials, and it leaves one finished future for each. *)
Lemma submit_all_loop (creds : list dict) (api_url : string) :
  forall (total : Z) (futures : list future) (w : World),
    Forall finished futures ->
    exists futures' w',
      for_each (JDict <$> creds) (total, futures) (submit_one env api_url) w
      = (Ok (total + Z.of_nat (length (List.filter has_credentials creds)),
             futures'), w')
      /\ Z.of_nat (length futures') =
         Z.of_nat (length futures)
         + Z.of_nat (length (List.filter has_credentials creds))
      /\ Forall finished futures'.
Proof.
  induction creds as [|d creds IH]; intros total futures w Hf.
  - exists futures, w. cbn. rewrite Z.add_0_r. split; [done|]. split; [lia|done].
  - cbn [fmap list_fmap for_each List.filter].
    rewrite bind_run, submit_one_run.
    destruct (has_credentials d) eqn:Hc; cbn zeta.
    + edestruct IH as (futures' & w' & Hrun & Hlen & Hall); last first.
      { exists futures', w'. split; [rewrite Hrun|split; [rewrite Hlen|done]].
        - do 3 f_equal. cbn [length]. lia.
        - rewrite length_app. cbn [length]. lia. }
      apply Forall_app. split; [done|]. apply Forall_singleton. by eexists.
    + by apply IH.
Qed.

(** [as_completed] only reorders. *)
Lemma as_completed_Permutation {A} (l : list A) : as_completed env l ≡ₚ l.
Proof.
  unfold as_completed. rewrite merge_sort_Permutation, fmap_imap.
  rewrite (imap_ext _ (const id)) by done.
  by rewrite imap_const, list_fmap_id.
Qed.

(** The first notification is best effort. *)
Lemma progress_start_total chat msg w :
  exists pm w',
    try_except (bind (send_message env chat msg) (fun m => ret (Some m)))
               (fun _ => ret None) w = (Ok pm, w').
Proof.
  unfold try_except. rewrite bind_run, send_message_run. cbn zeta.
  destruct (tg env _); unfold ret; eauto.
Qed.

(** A Telegram edit guarded by [except ApiTelegramException]. *)
Lemma except_api_edit msg chat ref (h : M unit) w :
  let w1 := emit (EEdit chat ref msg) w in
  except_api (edit_message_text env msg chat ref) h w =
  match tg env (trace w1) with
  | None => (Ok tt, w1)
  | Some (ApiTelegramException _) => h w1
  | Some e => (Raise e, w1)
  end.
Proof.
  unfold except_api, try_except. rewrite edit_message_text_run. cbn zeta.
  by destruct (tg env _) as [[]|].
Qed.

Lemma collect_step chat pm total n fu rest st w :
  collect_inv n (fu :: rest) st ->
  match collect env chat pm total st fu w with
  | (Ok st', _) => collect_inv n rest st'
  | (Raise e, _) => from_telegram env e
  end.
Proof.
  intros (Hfin & Hsum & Htok).
  apply Forall_cons in Hfin as [[res Hres] Hfin].
  unfold collect. rewrite bind_run, Hres. cbn [reraise]. unfold ret at 1.
  destruct res as [result_dict error_reason].
  set (st' := if match result_dict with Some d => truthy d | None => false end
              then _ else _).
  assert (Hst' : collect_inv n rest st').
  { subst st'. split; [done|]. cbn [length] in Hsum.
    destruct (match result_dict with Some d => truthy d | None => false end);
      cbn; split; try lia.
    rewrite length_app. cbn. lia. }
  destruct pm as [ref|]; [|done].
  destruct (_ || _); [|done].
  rewrite bind_run, except_api_edit. cbn zeta.
  destruct (tg env _) as [e|] eqn:Htg; [|done].
  destruct e; try (by eexists); done.
Qed.

(** C3: on every list of credentials (JSON objects), the token stage returns
    an attempted count equal to the number of credentials whose identifier
    and secret are both present and non-empty (truthy), a success count and a
    failure count that add up to it, and one token per success; it returns
    unless a Telegram call raised an exception the stage lets through. *)
Theorem token_stage_counts (chat : Z) (creds : list dict) (api_url : string)
    (w : World) :
  match (_fetch_jwt_concurrently_superbot_style env chat (JDict <$> creds)
           api_url w).1 with
  | Ok (tokens, success, fail, attempted) =>
      attempted = Z.of_nat (length (List.filter has_credentials creds))
      /\ success + fail = attempted
      /\ Z.of_nat (length tokens) = success
  | Raise e => from_telegram env e
  end.
Proof.
  unfold _fetch_jwt_concurrently_superbot_style. rewrite bind_run.
  destruct (progress_start_total chat
              ("⏳ Starting JWT generation for "
               +:+ str_int (Z.of_nat (length (JDict <$> creds)))
               +:+ " accounts...") w) as (pm & w1 & ->).
  rewrite bind_run. unfold submit_all.
  destruct (submit_all_loop creds api_url 0 [] w1 (Forall_nil_2 _))
    as (futures & w2 & -> & Hlen & Hfin).
  cbn [length] in Hlen. rewrite !Z.add_0_l in *.
  set (n := Z.of_nat (length (List.filter has_credentials creds))) in *.
  rewrite bind_run.
  pose proof (for_each_invariant (collect_inv n) (from_telegram env)
                (collect env chat pm n)
                (fun x l s w => collect_step chat pm n n x l s w)
                (as_completed env futures) (mkJwt [] 0 0 [] 0) w2) as Hloop.
  destruct (for_each _ _ _ w2) as [[st|e] w3]; [|apply Hloop]; cycle 1.
  { split; [|split; [|done]].
    - by rewrite as_completed_Permutation.
    - cbn. rewrite as_completed_Permutation. lia. }
  destruct Hloop as (_ & Hsum & Htok).
  { split; [|split; [|done]].
    - by rewrite as_completed_Permutation.
    - cbn. rewrite as_completed_Permutation. lia. }
  cbn [length] in Hsum. rewrite Z.add_0_r in Hsum.
  rewrite bind_run.
  assert (Htail : forall w4,
    match (bind (if fail_count st >? 0
                 then try_except
                        (bind (send_message env chat
                           ("⚠️ JWT Generation Failures:" +:+ nl +:+
                            String.concat nl
                              ((fun rc : option string * Z =>
                                  "- " +:+ reason_str rc.1 +:+ ": "
                                  +:+ str_int rc.2 +:+ " times")
                                 <$> failed_reasons st)))
                           (fun _ => ret tt))
                        (fun _ => ret tt)
                 else ret tt)
             (fun _ => ret (tokens_list st, success_count st, fail_count st, n))
             w4).1 with
    | Ok (tokens, success, fail, attempted) =>
        attempted = n /\ success + fail = attempted
        /\ Z.of_nat (length tokens) = success
    | Raise e => from_telegram env e
    end).
  { intros w4. rewrite bind_run. destruct (fail_count st >? 0).
    - unfold try_except. rewrite bind_run, send_message_run. cbn zeta.
      destruct (tg env _); cbn; done.
    - cbn. done. }
  destruct pm as [ref|]; [|apply Htail].
  rewrite except_api_edit. cbn zeta.
  destruct (tg env _) as [e|] eqn:Htg; [|apply Htail].
  destruct e; try (by eexists).
  rewrite bind_run, send_message_run. cbn zeta.
  destruct (tg env (trace (emit (ESend _ _) _))) eqn:Htg'; [by eexists|].
  apply Htail.
Qed.

End TokenStage.

(** Three credentials, two of them complete, against a token endpoint that
    answers 200 with a token: two attempts, two tokens, no failure. *)
Example two_of_three_credentials :
  (_fetch_jwt_concurrently_superbot_style (answering (Ok token_answer)) 7
     mixed_accounts "https://jwt.example/api" empty_world).1 =
  Ok (one_token "abc" ++ one_token "abc", 2, 0, 2).
Proof. vm_compute. reflexivity. Qed.

(** The same credentials against an endpoint that times out: two attempts,
    two failures under one reason. *)
Example two_of_three_time_out :
  (_fetch_jwt_concurrently_superbot_style (answering timed_out) 7
     mixed_accounts "https://jwt.example/api" empty_world).1 =
  Ok ([], 0, 2, 2).
Proof. vm_compute. reflexivity. Qed.

(** ** The dispatch of one target *)

Section Dispatch.

Context (env : Env).

(** The retry block by cases: nothing happens unless the answer has the
    sentinel shape; then the notice is sent and, if Telegram took it, the
    code sleeps 120 seconds and asks again, keeping the first answer when the
    second request raises. *)
Lemma retry_logic_run chat url uid resp w :
  retry_logic env chat url uid resp w =
  if error_is sentinel resp then
    let w1 := emit (ESend chat (retry_notice uid)) w in
    match tg env (trace w1) with
    | Some _ => (Ok (resp, text resp), w1)
    | None =>
        let w2 := emit (ELikeGet url uid) (emit (ESleep 120) w1) in
        match web env (trace w2) with
        | Ok r2 => (Ok (r2, text r2), w2)
        | Raise _ => (Ok (resp, text resp), w2)
        end
    end
  else (Ok (resp, text resp), w).
Proof.
  unfold retry_logic, error_is, try_except, response_json.
  destruct (parsed resp) as [v|err]; cbn;
    [|by rewrite andb_false_r].
  rewrite !bind_run. unfold ret at 1.
  destruct (status_code resp =? 200); cbn; [done|].
  destruct v as [| | | | | |d]; cbn; try done.
  destruct (eq_str _ sentinel); cbn; [|done].
  rewrite bind_run, send_message_run. cbn.
  destruct (tg env _); [done|].
  rewrite bind_run, like_get_run. cbn.
  by destruct (web env _).
Qed.

(** C1 (as the code has it): for one target the request is reissued exactly
    once, after the notice and a 120-second sleep, when the first answer has a
    status other than 200 and a JSON body whose [error] field is
    "Failed to retrieve initial player info." (and Telegram took the notice);
    for every other first outcome (an exception such as a timeout or a
    transport error, status 200, another error text, a body that is not a
    JSON object) exactly one request is made and none is reissued. *)
Theorem like_retry_policy (chat : Z) (url : string) (st : like_state)
    (uid : string) (w : World) :
  let first := web env (trace w ++ [ELikeGet url uid]) in
  let after := trace (like_one env chat url st uid w).2 in
  (retry_triggered first = false ->
   after = trace w ++ [ELikeGet url uid; ESleep 1]) /\
  (retry_triggered first = true ->
   tg env (trace w ++ [ELikeGet url uid; ESend chat (retry_notice uid)]) = None ->
   after = trace w ++ [ELikeGet url uid; ESend chat (retry_notice uid);
                       ESleep 120; ELikeGet url uid; ESleep 1]).
Proof.
  cbn zeta. unfold like_one, try_except.
  rewrite !bind_run, like_get_run. cbn zeta. cbn [trace emit].
  destruct (web env (trace w ++ [ELikeGet url uid])) as [r|e]; cbn [retry_triggered].
  - rewrite bind_run, retry_logic_run. cbn [trace emit].
    destruct (error_is sentinel r).
    + split; [done|]. intros _ Htg.
      rewrite <- !app_assoc in *. cbn [app] in *. rewrite Htg.
      destruct (web env _) as [r2|e2].
      * by destruct (status_code r2 =? 200); cbn; rewrite <- !app_assoc.
      * by destruct (status_code r =? 200); cbn; rewrite <- !app_assoc.
    + split; [|done]. intros _.
      by destruct (status_code r =? 200); cbn; rewrite <- !app_assoc.
  - split; [|done]. intros _. cbn. by rewrite <- !app_assoc.
Qed.

(** C10: when the retry of a target is triggered and the reissued request
    raises, the exception is swallowed: the target is counted once, as a
    failure (the first answer's status is not 200), and the text reported for
    it is the body of the first answer, not a request error. *)
Theorem failed_retry_keeps_first_answer (chat : Z) (url : string)
    (st : like_state) (uid : string) (w : World) (r : response) (e : exn) :
  web env (trace w ++ [ELikeGet url uid]) = Ok r ->
  error_is sentinel r = true ->
  tg env (trace w ++ [ELikeGet url uid; ESend chat (retry_notice uid)]) = None ->
  web env (trace w ++ [ELikeGet url uid; ESend chat (retry_notice uid);
                       ESleep 120; ELikeGet url uid]) = Raise e ->
  (like_one env chat url st uid w).1 =
  Ok (mkLike (like_success st) (like_fail st + 1)
             (all_like_responses st ++ [response_line uid (text r)])).
Proof.
  intros Hfirst Hshape Htg Hsecond.
  unfold like_one, try_except.
  rewrite !bind_run, like_get_run. cbn zeta. cbn [trace emit]. rewrite Hfirst.
  rewrite bind_run, retry_logic_run, Hshape. cbn [trace emit].
  rewrite <- !app_assoc. cbn [app]. rewrite Htg, Hsecond.
  apply andb_prop in Hshape as [Hstatus _].
  apply negb_true_iff in Hstatus. by rewrite Hstatus.
Qed.

End Dispatch.

Lemma like_retry_policy_witness :
  trace (like_one (answering (Ok (error_answer sentinel))) 7
           "https://like.example/like" (mkLike 0 0 []) "42" empty_world).2 =
  [ELikeGet "https://like.example/like" "42"; ESend 7 (retry_notice "42");
   ESleep 120; ELikeGet "https://like.example/like" "42"; ESleep 1].
Proof.
  apply (proj2 (like_retry_policy (answering (Ok (error_answer sentinel))) 7
                  "https://like.example/like" (mkLike 0 0 []) "42" empty_world));
    reflexivity.
Defined.

(** C1 as stated fails: a 500 whose [error] field is the message the claim
    names gets no retry. *)
Lemma claimed_sentinel_gets_no_retry :
  error_is "could not retrieve required upstream state"
    (error_answer "could not retrieve required upstream state") = true
  /\ trace (like_one
              (answering (Ok (error_answer "could not retrieve required upstream state")))
              7 "https://like.example/like" (mkLike 0 0 []) "42" empty_world).2 =
     [ELikeGet "https://like.example/like" "42"; ESleep 1].
Proof. split; vm_compute; reflexivity. Qed.

Lemma failed_retry_keeps_first_answer_witness :
  (like_one sentinel_then_timeout 7 "https://like.example/like" (mkLike 3 1 [])
     "42" empty_world).1 =
  Ok (mkLike 3 2 [response_line "42" (text (error_answer sentinel))]).
Proof.
  apply (failed_retry_keeps_first_answer sentinel_then_timeout 7
           "https://like.example/like" (mkLike 3 1 []) "42" empty_world
           (error_answer sentinel) (Timeout "Read timed out."));
    reflexivity.
Defined.

(** ** The publication of the tokens *)

Section Publish.

Context (env : Env).

(** C4: with GitHub answering from the store, the update step reads the file
    and then: creates it and yields "Created" when it is absent; yields
    "Unchanged" and writes nothing when its content equals the new
    serialization; updates it under the [sha] just read and yields "Updated"
    when the content differs.  Hence from an absent file, publishing the same
    token set twice yields "Created" then "Unchanged", and publishing a token
    set with another serialization after that yields "Updated". *)
Theorem github_update_statuses (c : config) (token repo path : string)
    (tokens : list json) (w : World) :
  github_token c = Some token ->
  github_repo c = Some repo ->
  github_file_path c = Some path ->
  (forall h, gh env h = None) ->
  let new_content := json_dumps env tokens in
  let read := [EGhRepo token repo; EGhGetContents repo path] in
  (store w !! (repo, path) = None ->
   github_update env c tokens w =
   (Ok "Created",
    written repo path new_content 0
      (read ++ [EGhCreate repo path new_content]) w)) /\
  (forall sha,
     store w !! (repo, path) = Some (new_content, sha) ->
     github_update env c tokens w = (Ok "Unchanged", 
       mkWorld (settings w) (threads w) (pool w) (store w) (trace w ++ read))) /\
  (forall old sha,
     store w !! (repo, path) = Some (old, sha) -> old <> new_content ->
     github_update env c tokens w =
     (Ok "Updated",
      written repo path new_content (S sha)
        (read ++ [EGhUpdate repo path new_content sha]) w)) /\
  (forall tokens2,
     store w !! (repo, path) = None ->
     json_dumps env tokens2 <> new_content ->
     let first := github_update env c tokens w in
     let second := github_update env c tokens first.2 in
     let third := github_update env c tokens2 second.2 in
     first.1 = Ok "Created" /\ second.1 = Ok "Unchanged"
     /\ store second.2 = store first.2
     /\ trace second.2 = trace first.2 ++ read
     /\ third.1 = Ok "Updated").
Proof.
  intros Htok Hrepo Hpath Hgh new_content read.
  assert (Hcreate : forall w0, store w0 !! (repo, path) = None ->
    github_update env c tokens w0 =
    (Ok "Created",
     written repo path new_content 0
       (read ++ [EGhCreate repo path new_content]) w0)).
  { intros w0 Hnone. unfold github_update, get_contents, create_file.
    rewrite Htok, Hrepo, Hpath. unfold_m. rewrite !Hgh. cbn.
    rewrite Hnone. cbn. rewrite Hgh. cbn. rewrite Hnone.
    unfold written. by rewrite <- !app_assoc. }
  assert (Hsame : forall toks w0 sha,
    store w0 !! (repo, path) = Some (json_dumps env toks, sha) ->
    github_update env c toks w0 = (Ok "Unchanged",
      mkWorld (settings w0) (threads w0) (pool w0) (store w0)
              (trace w0 ++ read))).
  { intros toks w0 sha Hsome. unfold github_update, get_contents.
    rewrite Htok, Hrepo, Hpath. unfold_m. rewrite !Hgh. cbn.
    rewrite Hsome. cbn. rewrite String.eqb_refl. cbn.
    by rewrite <- !app_assoc. }
  assert (Hupdate : forall toks w0 old sha,
    store w0 !! (repo, path) = Some (old, sha) -> old <> json_dumps env toks ->
    github_update env c toks w0 =
    (Ok "Updated",
     written repo path (json_dumps env toks) (S sha)
       (read ++ [EGhUpdate repo path (json_dumps env toks) sha]) w0)).
  { intros toks w0 old sha Hsome Hne.
    unfold github_update, get_contents, update_file.
    rewrite Htok, Hrepo, Hpath. unfold_m. rewrite !Hgh. cbn.
    rewrite Hsome. cbn. apply String.eqb_neq in Hne. rewrite Hne. cbn.
    rewrite Hgh. cbn. rewrite Hsome. rewrite decide_True by done.
    unfold written. by rewrite <- !app_assoc. }
  split; [apply Hcreate|]. split; [apply Hsame|]. split; [apply Hupdate|].
  intros tokens2 Hnone Hne. cbn zeta.
  rewrite (Hcreate w Hnone). cbn [fst snd].
  rewrite (Hsame tokens _ 0%nat); last by (cbn; apply lookup_insert_eq).
  cbn [fst snd store trace written].
  rewrite (Hupdate tokens2 _ new_content 0%nat);
    [done | by (cbn; apply lookup_insert_eq) | done].
Qed.

End Publish.

Lemma github_update_statuses_witness :
  let env := answering timed_out in
  let c := example_config [JDict account1] in
  let first := github_update env c (one_token "abc") empty_world in
  let second := github_update env c (one_token "abc") first.2 in
  let third := github_update env c (one_token "xyz") second.2 in
  first.1 = Ok "Created" /\ second.1 = Ok "Unchanged"
  /\ store second.2 = store first.2
  /\ trace second.2 =
     trace first.2 ++ [EGhRepo "ghp_token" "owner/repo";
                       EGhGetContents "owner/repo" "tokens.json"]
  /\ third.1 = Ok "Updated".
Proof.
  apply (proj2 (proj2 (proj2
           (github_update_statuses (answering timed_out)
              (example_config [JDict account1]) "ghp_token" "owner/repo"
              "tokens.json" (one_token "abc") empty_world
              eq_refl eq_refl eq_refl (fun _ => eq_refl))))
           (one_token "xyz") eq_refl).
  vm_compute. discriminate.
Defined.

(** ** The pipeline: aborted runs *)

#[global] Instance only_preorder (P : event -> Prop) : PreOrder (only P).
Proof.
  split.
  - intros w. exists []. by rewrite app_nil_r.
  - intros w1 w2 w3 (evs1 & H1 & Hq1) (evs2 & H2 & Hq2).
    exists (evs1 ++ evs2). split; [by rewrite H2, H1, app_assoc|].
    by apply Forall_app.
Qed.

#[global] Instance same_registry_preorder : PreOrder same_registry.
Proof.
  split.
  - by intros w.
  - intros w1 w2 w3 [H1 H1'] [H2 H2']. split; congruence.
Qed.

#[global] Instance ended_in_first_step_preorder : PreOrder ended_in_first_step.
Proof.
  split.
  - intros w. split; [reflexivity|done].
  - intros w1 w2 w3 [H1 S1] [H2 S2]. split; [by etrans|congruence].
Qed.

Lemma only_emit (P : event -> Prop) e w : P e -> only P w (emit e w).
Proof. intros He. exists [e]. split; [done|]. by apply Forall_singleton. Qed.

Lemma only_same_trace (P : event -> Prop) w w' :
  trace w' = trace w -> only P w w'.
Proof. intros H. exists []. by rewrite app_nil_r. Qed.

Lemma bind_step {A B} (R : relation World) `{!PreOrder R} (m : M A)
    (f : A -> M B) w :
  R w (m w).2 ->
  (forall a, (m w).1 = Ok a -> R (m w).2 (f a (m w).2).2) ->
  R w (bind m f w).2.
Proof.
  intros Hm Hf. rewrite bind_run. destruct (m w) as [[a|e] w']; [|done].
  etrans; [exact Hm|]. by apply Hf.
Qed.

Lemma get_config_run chat w :
  match settings w !! chat with
  | Some c => _get_config chat w = (Ok c, w)
  | None =>
      _get_config chat w =
      (Ok empty_config,
       mkWorld (<[chat := empty_config]> (settings w)) (threads w) (pool w)
               (store w) (trace w))
  end.
Proof. unfold _get_config. unfold_m. by destruct (settings w !! chat). Qed.

Lemma send_message_world env chat msg w :
  (send_message env chat msg w).2 = emit (ESend chat msg) w.
Proof. rewrite send_message_run. cbn zeta. by destruct (tg env _). Qed.

(** *** What a run keeps up to the point where it aborts *)

Section PipelineFrame.

Context (env : Env) (R : relation World) `{!PreOrder R} (good : event -> Prop).

Hypothesis R_emit : forall e w, good e -> R w (emit e w).
Hypothesis R_settings :
  forall s w, R w (mkWorld s (threads w) (pool w) (store w) (trace w)).
Hypothesis R_registry :
  forall t p w, R w (mkWorld (settings w) t p (store w) (trace w)).
Hypothesis good_send : forall chat msg, good (ESend chat msg).
Hypothesis good_edit : forall chat ref msg, good (EEdit chat ref msg).
Hypothesis good_jwt : forall url, good (EJwtGet url).

Lemma frame_send_message chat msg : stays R (send_message env chat msg).
Proof. by apply (stays_send_message env R good R_emit). Qed.

Lemma frame_notice chat msg :
  stays R (bind (send_message env chat msg) (fun _ => ret tt)).
Proof.
  apply (stays_bind R); [apply frame_send_message|]. intros _. apply stays_ret, _.
Qed.

Lemma frame_token_stage chat accounts api_url :
  stays R (_fetch_jwt_concurrently_superbot_style env chat accounts api_url).
Proof. by apply (stays_token_stage env R good R_emit). Qed.

Lemma frame_cancel_registered chat : stays R (cancel_registered chat).
Proof.
  intros w. unfold cancel_registered. unfold_m.
  destruct (threads w !! chat); [apply R_registry | reflexivity].
Qed.

Lemma frame_get_config chat : stays R (_get_config chat).
Proof.
  intros w. pose proof (get_config_run chat w) as Hc.
  destruct (settings w !! chat); rewrite Hc; [reflexivity | apply R_settings].
Qed.

(** The handler of line 741. *)
Lemma frame_handler chat is_manual_run e :
  stays R
    (bind (send_message env chat (msg_failed e))
       (fun _ => if negb is_manual_run then cancel_registered chat else ret tt)).
Proof.
  apply (stays_bind R); [apply frame_send_message|].
  intros _. destruct (negb is_manual_run);
    [apply frame_cancel_registered | apply stays_ret, _].
Qed.

Lemma frame_after_body chat is_manual_run w :
  R w (task_body env chat w).2 ->
  R w (_run_task_logic env chat is_manual_run w).2.
Proof.
  unfold _run_task_logic, try_except.
  destruct (task_body env chat w) as [[[]|e] w']; [done|].
  intros H. etrans; [exact H|]. apply frame_handler.
Qed.

(** Up to the end of step 1, when it ends the run. *)
Lemma frame_no_credentials chat w :
  list_truthy (guest_accounts (config_of chat w)) = false ->
  R w (_run_task_logic env chat false w).2
  /\ R w (_run_task_logic env chat true w).2.
Proof.
  intros Hacc.
  enough (R w (task_body env chat w).2) by (split; by apply frame_after_body).
  unfold task_body, from_step1, config_of in *. rewrite bind_run.
  pose proof (get_config_run chat w) as Hc.
  destruct (settings w !! chat) as [c|]; rewrite Hc; cbn in Hacc.
  - destruct (negb (config_truthy c)); [reflexivity|].
    apply bind_step; [apply _ | apply frame_send_message |]. intros _ _.
    destruct (guest_accounts c) as [[|a l]|]; try done; cbn [default];
      apply frame_notice.
  - cbn. apply R_settings.
Qed.

Lemma frame_no_tokens chat w api_url s f t :
  jwt_api (config_of chat w) = Some api_url ->
  (_fetch_jwt_concurrently_superbot_style env chat
     (default [] (guest_accounts (config_of chat w))) api_url
     (emit (ESend chat msg_step1) w)).1 = Ok ([], s, f, t) ->
  R w (_run_task_logic env chat false w).2
  /\ R w (_run_task_logic env chat true w).2.
Proof.
  intros Hapi Hstage.
  enough (R w (task_body env chat w).2) by (split; by apply frame_after_body).
  unfold task_body, from_step1, config_of in *. rewrite bind_run.
  pose proof (get_config_run chat w) as Hc.
  destruct (settings w !! chat) as [c|]; rewrite Hc; cbn in Hapi, Hstage;
    [|apply R_settings].
  destruct (negb (config_truthy c)); [reflexivity|].
  apply bind_step; [apply _ | apply frame_send_message |]. intros _ _.
  rewrite send_message_world.
  destruct (guest_accounts c) as [[|a l]|]; cbn [default from_option id] in *;
    try apply frame_notice.
  rewrite Hapi. cbn [subscript]. rewrite bind_run. unfold ret at 1.
  apply bind_step; [apply _ | apply frame_token_stage |].
  intros r Hr. rewrite Hr in Hstage. injection Hstage as ->.
  apply (stays_bind R); [apply frame_send_message|].
  intros _. apply frame_notice.
Qed.


(** *** A publish step that fails *)

Hypothesis R_store :
  forall s w, R w (mkWorld (settings w) (threads w) (pool w) s (trace w)).
Hypothesis good_gh_repo : forall token repo, good (EGhRepo token repo).
Hypothesis good_gh_get : forall repo path, good (EGhGetContents repo path).
Hypothesis good_gh_update :
  forall repo path content sha, good (EGhUpdate repo path content sha).
Hypothesis good_gh_create :
  forall repo path content, good (EGhCreate repo path content).

Lemma frame_publish chat c token_dicts :
  stays R (publish env chat c token_dicts).
Proof. by apply (stays_publish env R good R_emit R_store). Qed.

Lemma frame_publish_failed chat w api_url tokens s f t w2 e :
  jwt_api (config_of chat w) = Some api_url ->
  _fetch_jwt_concurrently_superbot_style env chat
    (default [] (guest_accounts (config_of chat w))) api_url
    (emit (ESend chat msg_step1) w) = (Ok (tokens, s, f, t), w2) ->
  (publish env chat (config_of chat w) tokens
     (emit (ESend chat msg_step2)
        (emit (ESend chat (jwt_summary t s f)) w2))).1 = Raise e ->
  R w (_run_task_logic env chat false w).2
  /\ R w (_run_task_logic env chat true w).2.
Proof.
  intros Hapi Hstage Hpub.
  enough (R w (task_body env chat w).2) by (split; by apply frame_after_body).
  unfold task_body, from_step1, from_step2, after_publish, config_of in *.
  rewrite bind_run.
  pose proof (get_config_run chat w) as Hc.
  destruct (settings w !! chat) as [c|]; rewrite Hc; cbn in Hapi, Hstage, Hpub;
    [|apply R_settings].
  destruct (negb (config_truthy c)); [reflexivity|].
  apply bind_step; [apply _ | apply frame_send_message |]. intros _ _.
  rewrite send_message_world.
  destruct (guest_accounts c) as [[|a l]|]; cbn [default from_option id] in *;
    try apply frame_notice.
  rewrite Hapi. cbn [subscript]. rewrite bind_run. unfold ret at 1.
  apply bind_step; [apply _ | apply frame_token_stage |].
  intros r Hr. rewrite Hstage in Hr |- *. cbn in Hr |- *.
  injection Hr as <-.
  apply bind_step; [apply _ | apply frame_send_message |]. intros _ _.
  rewrite send_message_world.
  destruct tokens as [|tok tokens]; [apply frame_notice|].
  apply bind_step; [apply _ | apply frame_send_message |]. intros _ _.
  rewrite send_message_world.
  apply bind_step; [apply _ | apply stays_capture, frame_publish |].
  intros published Hp. unfold capture in Hp |- *.
  destruct (publish env chat c (tok :: tokens) _) as [r w5]. cbn in *.
  injection Hp as <-. subst r. apply frame_notice.
Qed.

End PipelineFrame.

Section Aborts.

Context (env : Env).

(** C5: a run whose configuration has no credentials and a run whose token
    stage returns an empty token set end in the first step: from start to
    return they make only Telegram calls and token requests, so no GitHub
    call, no like request and no sleep, and they write no file.  A run whose
    publish step fails makes no like request and does not sleep, so the
    60-second wait and the dispatch are skipped. *)
Theorem aborted_run_never_dispatches (chat : Z) (is_manual_run : bool)
    (w : World) :
  let c := config_of chat w in
  let w' := (_run_task_logic env chat is_manual_run w).2 in
  (list_truthy (guest_accounts c) = false -> ended_in_first_step w w') /\
  (forall api_url s f t,
     jwt_api c = Some api_url ->
     (_fetch_jwt_concurrently_superbot_style env chat
        (default [] (guest_accounts c)) api_url
        (emit (ESend chat msg_step1) w)).1 = Ok ([], s, f, t) ->
     ended_in_first_step w w') /\
  (forall api_url tokens s f t w2 e,
     jwt_api c = Some api_url ->
     _fetch_jwt_concurrently_superbot_style env chat
       (default [] (guest_accounts c)) api_url
       (emit (ESend chat msg_step1) w) = (Ok (tokens, s, f, t), w2) ->
     (publish env chat c tokens
        (emit (ESend chat msg_step2)
           (emit (ESend chat (jwt_summary t s f)) w2))).1 = Raise e ->
     only not_dispatch_call w w').
Proof.
  cbn zeta.
  assert (Hemit : forall e w0, first_step_call e ->
                               ended_in_first_step w0 (emit e w0))
    by (intros e w0 He; split; [by apply only_emit | done]).
  assert (Hsame : forall w0 w1, trace w1 = trace w0 -> store w1 = store w0 ->
                                ended_in_first_step w0 w1)
    by (intros w0 w1 Ht Hs; split; [by apply only_same_trace | done]).
  split; [|split].
  - intros Hacc.
    destruct (frame_no_credentials env ended_in_first_step first_step_call
                Hemit ltac:(intros; by apply Hsame)
                ltac:(intros; by apply Hsame) ltac:(done) chat w Hacc)
      as [Hf Ht].
    by destruct is_manual_run.
  - intros api_url s f t Hapi Hstage.
    destruct (frame_no_tokens env ended_in_first_step first_step_call
                Hemit ltac:(intros; by apply Hsame)
                ltac:(intros; by apply Hsame) ltac:(done) ltac:(done)
                ltac:(done) chat w api_url s f t Hapi Hstage)
      as [Hf Ht].
    by destruct is_manual_run.
  - intros api_url tokens s f t w2 e Hapi Hstage Hpub.
    destruct (frame_publish_failed env (only not_dispatch_call)
                not_dispatch_call (only_emit not_dispatch_call)
                ltac:(intros; by apply only_same_trace)
                ltac:(intros; by apply only_same_trace)
                ltac:(done) ltac:(done) ltac:(done)
                ltac:(intros; by apply only_same_trace)
                ltac:(done) ltac:(done) ltac:(done) ltac:(done)
                chat w api_url tokens s f t w2 e Hapi Hstage Hpub)
      as [Hf Ht].
    by destruct is_manual_run.
Qed.

End Aborts.

(** The scenario of three credentials all missing their secret: the token
    stage returns no token, and the run ends in its first step. *)
Lemma aborted_run_never_dispatches_witness :
  ended_in_first_step (world_with (example_config no_secret_accounts))
    (_run_task_logic (answering timed_out) 7 true
       (world_with (example_config no_secret_accounts))).2.
Proof.
  apply (proj1 (proj2 (aborted_run_never_dispatches (answering timed_out) 7 true
                         (world_with (example_config no_secret_accounts))))
           "https://jwt.example/api" 0 0 0); reflexivity.
Defined.

(** ** The pipeline: how a run ends *)

Section Outcome.

Context (env : Env).

Lemma ok_post_bind {A B} (P : World -> Prop) (m : M A) (f : A -> M B) :
  (forall a, ok_post P (f a)) -> ok_post P (bind m f).
Proof.
  intros Hf w. rewrite bind_run. destruct (m w) as [[a|e] w']; [|done].
  apply Hf.
Qed.

(** A notice followed by [return]. *)
Lemma notice_ends chat (Q : string -> Prop) msg :
  Q msg ->
  ok_post (ends_with chat Q)
    (bind (send_message env chat msg) (fun _ => ret tt)).
Proof.
  intros Hmsg w. rewrite bind_run, send_message_run. cbn zeta.
  destruct (tg env _); [done|]. cbn. by exists (trace w), msg.
Qed.

Ltac closing :=
  unfold closing_notice;
  first [ by left | by (right; left) | by (right; right; left; eexists)
        | by (right; right; right; left; do 5 eexists)
        | by (right; right; right; right; eexists) ].

Ltac post_go tac :=
  repeat first
    [ apply notice_ends; tac
    | apply ok_post_bind; intros ?
    | match goal with
      | |- ok_post _ (match ?x with _ => _ end) => destruct x
      end ].

(** Step 3 ends on the final summary. *)
Lemma send_likes_ends chat c jwt_success jwt_total status :
  ok_post (ends_with chat (is_summary jwt_success jwt_total status))
    (send_likes env chat c jwt_success jwt_total status).
Proof. unfold send_likes. post_go ltac:(by eexists _, _). Qed.

(** Past the configuration check, a run that returns has just sent a closing
    notice. *)
Lemma from_step1_ends chat c :
  ok_post (ends_with chat closing_notice) (from_step1 env chat c).
Proof.
  unfold from_step1, from_step2, after_publish, send_likes.
  post_go ltac:(closing).
Qed.

(** *** Path by path *)

Lemma bind_ends_on {A} chat Q (m : M A) (f : A -> M unit) w :
  (forall a, (m w).1 = Ok a -> ends_on chat Q (f a (m w).2)) ->
  ends_on chat Q (bind m f w).
Proof.
  intros Hf. rewrite bind_run. destruct (m w) as [[a|e] w']; [|done].
  by apply Hf.
Qed.

Lemma notice_ends_on chat (Q : string -> Prop) msg w :
  Q msg -> ends_on chat Q (bind (send_message env chat msg) (fun _ => ret tt) w).
Proof. intros HQ. apply (notice_ends chat Q msg HQ w). Qed.

Lemma from_step1_no_accounts chat c w :
  list_truthy (guest_accounts c) = false ->
  ends_on chat (eq msg_no_accounts) (from_step1 env chat c w).
Proof.
  intros Hacc. unfold from_step1. apply bind_ends_on. intros _ _.
  destruct (guest_accounts c) as [[|a l]|]; try done; by apply notice_ends_on.
Qed.

Lemma from_step2_ends chat c tokens jwt_success jwt_total w :
  ends_on chat
    (match (publish env chat c tokens (emit (ESend chat msg_step2) w)).1 with
     | Ok status => is_summary jwt_success jwt_total status
     | Raise e => eq (msg_github_failed e)
     end)
    (from_step2 env chat c tokens jwt_success jwt_total w).
Proof.
  unfold from_step2. apply bind_ends_on. intros _ _.
  rewrite send_message_world. apply bind_ends_on. intros published.
  unfold capture.
  destruct (publish env chat c tokens _) as [r w'].
  cbn [fst snd]. intros [= <-]. destruct r as [status|e]; cbn [after_publish].
  - apply bind_ends_on. intros _ _. apply bind_ends_on. intros _ _.
    apply send_likes_ends.
  - by apply notice_ends_on.
Qed.

Lemma from_step1_tokens chat c w api_url tokens s f t w2 :
  list_truthy (guest_accounts c) = true ->
  jwt_api c = Some api_url ->
  _fetch_jwt_concurrently_superbot_style env chat
    (default [] (guest_accounts c)) api_url (emit (ESend chat msg_step1) w)
  = (Ok (tokens, s, f, t), w2) ->
  ends_on chat
    (match tokens with
     | [] => eq msg_no_tokens
     | _ :: _ =>
         match (publish env chat c tokens
                  (emit (ESend chat msg_step2)
                     (emit (ESend chat (jwt_summary t s f)) w2))).1 with
         | Ok status => is_summary s t status
         | Raise e => eq (msg_github_failed e)
         end
     end)
    (from_step1 env chat c w).
Proof.
  intros Hacc Hapi Hstage. unfold from_step1. apply bind_ends_on. intros _ _.
  rewrite send_message_world.
  destruct (guest_accounts c) as [[|a l]|]; try done.
  cbn [default from_option id] in *. rewrite Hapi. cbn [subscript].
  rewrite bind_run. unfold ret at 1.
  apply bind_ends_on. rewrite Hstage. cbn [fst snd]. intros r [= <-].
  apply bind_ends_on. intros _ _. rewrite send_message_world.
  destruct tokens as [|tok tokens]; [by apply notice_ends_on|].
  apply from_step2_ends.
Qed.

(** A run on a non-empty configuration is steps 1 to 3 under the handler. *)
Lemma run_ends_on chat is_manual_run w (Q : string -> Prop) :
  config_truthy (config_of chat w) = true ->
  ends_on chat Q (from_step1 env chat (config_of chat w) w) ->
  ends_with chat (or_failed Q) (_run_task_logic env chat is_manual_run w).2.
Proof.
  unfold _run_task_logic, try_except, task_body, config_of.
  rewrite bind_run. pose proof (get_config_run chat w) as Hc.
  destruct (settings w !! chat) as [c|]; [|done].
  rewrite Hc. cbn [default from_option id]. intros -> Hends. cbn [negb].
  destruct (from_step1 env chat c w) as [[[]|e] w1].
  - destruct Hends as (before & msg & Htrace & HQ).
    exists before, msg. split; [done|by left].
  - rewrite bind_run, send_message_run. cbn zeta.
    exists (trace w1), (msg_failed e). split; [|right; by eexists].
    destruct (tg env _); [done|].
    destruct (negb is_manual_run); [|done].
    unfold cancel_registered. unfold_m. by destruct (threads _ !! chat).
Qed.

(** *** The summary of a completed run *)

(** Step 3 ends on the summary of the counts the loop over the targets
    leaves. *)
Lemma send_likes_summary chat c s t status url st w w4 :
  like_api c = Some url ->
  for_each (default [] (target_uids c)) (mkLike 0 0 [])
    (like_one env chat url) (emit (ESend chat msg_step3) w) = (Ok st, w4) ->
  ends_on chat
    (eq (final_summary s t status (like_success st) (like_fail st)))
    (send_likes env chat c s t status w).
Proof.
  intros Hurl Hloop. unfold send_likes. apply bind_ends_on. intros _ _.
  rewrite send_message_world. rewrite Hurl. cbn [subscript].
  rewrite bind_run. unfold ret at 1. cbv zeta.
  assert (Hend : forall w0,
    ends_on chat
      (eq (final_summary s t status (like_success st) (like_fail st)))
      (bind (send_responses env chat (all_like_responses st)) (fun _ =>
       bind (send_message env chat
               (final_summary s t status (like_success st) (like_fail st)))
            (fun _ => ret tt)) w0)).
  { intros w0. apply bind_ends_on. intros _ _. by apply notice_ends_on. }
  destruct (default [] (target_uids c)) as [|uid targets] eqn:Htargets.
  - cbn [for_each] in Hloop. unfold ret in Hloop. injection Hloop as <- _.
    apply bind_ends_on. intros st' Hst'.
    rewrite bind_run, send_message_run in Hst'. cbn zeta in Hst'.
    destruct (tg env _); [done|]. cbn in Hst'. injection Hst' as <-.
    apply Hend.
  - apply bind_ends_on. intros st' Hst'. unfold msg_step3 in Hloop.
    rewrite Hloop in Hst' |- *. cbn [fst snd] in *. injection Hst' as <-.
    apply Hend.
Qed.

Lemma from_step1_summary chat c w api_url tok tokens s f t w2 status w3 url
    st w4 :
  list_truthy (guest_accounts c) = true ->
  jwt_api c = Some api_url ->
  _fetch_jwt_concurrently_superbot_style env chat
    (default [] (guest_accounts c)) api_url (emit (ESend chat msg_step1) w)
  = (Ok (tok :: tokens, s, f, t), w2) ->
  publish env chat c (tok :: tokens)
    (emit (ESend chat msg_step2) (emit (ESend chat (jwt_summary t s f)) w2))
  = (Ok status, w3) ->
  like_api c = Some url ->
  for_each (default [] (target_uids c)) (mkLike 0 0 [])
    (like_one env chat url)
    (emit (ESend chat msg_step3)
       (emit (ESleep 60) (emit (ESend chat msg_wait) w3))) = (Ok st, w4) ->
  ends_on chat
    (eq (final_summary s t status (like_success st) (like_fail st)))
    (from_step1 env chat c w).
Proof.
  intros Hacc Hapi Hstage Hpub Hurl Hloop.
  unfold from_step1. apply bind_ends_on. intros _ _.
  rewrite send_message_world.
  destruct (guest_accounts c) as [[|a l]|]; try done.
  cbn [default from_option id] in *. rewrite Hapi. cbn [subscript].
  rewrite bind_run. unfold ret at 1.
  apply bind_ends_on. rewrite Hstage. cbn [fst snd]. intros r [= <-].
  apply bind_ends_on. intros _ _. rewrite send_message_world.
  unfold from_step2. apply bind_ends_on. intros _ _.
  rewrite send_message_world. apply bind_ends_on. intros published.
  unfold capture. rewrite Hpub. cbn [fst snd]. intros [= <-].
  cbn [after_publish]. apply bind_ends_on. intros _ _.
  rewrite send_message_world. apply bind_ends_on. intros _ _.
  unfold sleep at 1, log. cbn [snd].
  by apply (send_likes_summary chat c s t status url st _ w4).
Qed.

(** A configuration that passes the check of [_check_config_complete], behind
    which both call sites of the run stand, is not the empty record. *)
Lemma complete_config_truthy chat w :
  (_check_config_complete chat w).1 = Ok true ->
  config_truthy (config_of chat w) = true.
Proof.
  unfold _check_config_complete, config_of. rewrite bind_run.
  pose proof (get_config_run chat w) as Hc.
  destruct (settings w !! chat) as [c|]; rewrite Hc; unfold ret; cbn;
    [|done].
  intros [= H]. unfold config_truthy.
  destruct (jwt_api c); [done|]. by cbn in H.
Qed.


End Outcome.


(** Line 629 on the empty record: the run returns without any call.  No
    handler leads here: both call sites of the run stand behind the
    completeness check. *)
Example empty_record_returns_silently :
  _run_task_logic (answering timed_out) 7 true empty_world =
  (Ok tt, mkWorld {[7 := empty_config]} ∅ [] ∅ []).
Proof. vm_compute. reflexivity. Qed.

(** A run whose guest accounts are an empty list sends the first notice and
    the cancellation, and no summary. *)
Example run_without_accounts :
  trace (_run_task_logic (answering timed_out) 7 true
           (world_with (example_config []))).2 =
  [ESend 7 msg_step1; ESend 7 msg_no_accounts].
Proof. vm_compute. reflexivity. Qed.

(** A completed run: one token, the file created, one target liked; the
    summary is the last message. *)
Example completed_run_summary :
  last (trace (_run_task_logic (answering (Ok token_answer)) 7 true
                 configured).2)
  = Some (ESend 7 (final_summary 1 1 "Created" 1 0)).
Proof. vm_compute. reflexivity. Qed.

(** ** The scheduler *)

#[global] Instance keeps_registry_ok_preorder : PreOrder keeps_registry_ok.
Proof.
  split; [intros w H; exact H | intros w1 w2 w3 H1 H2 H; exact (H2 (H1 H))].
Qed.

Lemma same_registry_keeps w w' : same_registry w w' -> keeps_registry_ok w w'.
Proof. intros [Ht Hp] H. unfold registry_ok in *. by rewrite Ht, Hp. Qed.

(** Cancelling the thread registered for a chat. *)
Lemma cancel_registered_keeps chat : stays keeps_registry_ok (cancel_registered chat).
Proof.
  intros w [Hreg Hclear]. unfold cancel_registered. unfold_m.
  destruct (threads w !! chat) as [tid|] eqn:Htid; [|done].
  unfold registry_ok; cbn [snd threads pool]. split.
  - intros chat' tid' Hl. apply lookup_delete_Some in Hl as [Hne Hl].
    destruct (Hreg chat' tid' Hl) as (th & Hth & Hchat & Hstop).
    exists th. split; [|done]. rewrite list_lookup_alter_ne; [done|].
    intros Heq. subst tid'.
    destruct (Hreg chat tid Htid) as (th0 & Hth0 & Hchat0 & _). congruence.
  - intros tid' th Hth Hstop. cbn in *.
    destruct (decide (tid = tid')) as [->|Hne].
    + rewrite list_lookup_alter_eq in Hth.
      destruct (pool w !! tid') as [th0|]; [|done]. by injection Hth as <-.
    + rewrite list_lookup_alter_ne in Hth by done.
      pose proof (Hclear tid' th Hth Hstop) as Hl.
      rewrite lookup_delete_ne; [done|]. intros Heq. congruence.
Qed.

(** A thread that ends stays as it was in the registry. *)
Lemma thread_ends_keeps tid : stays keeps_registry_ok (thread_ends tid).
Proof.
  intros w [Hreg Hclear]. unfold thread_ends. unfold_m.
  unfold registry_ok; cbn [snd threads pool]. split.
  - intros chat' tid' Hl.
    destruct (Hreg chat' tid' Hl) as (th & Hth & Hchat & Hstop).
    destruct (decide (tid = tid')) as [->|Hne].
    + exists (set_dead th). by rewrite list_lookup_alter_eq, Hth.
    + exists th. by rewrite list_lookup_alter_ne.
  - intros tid' th Hth Hstop.
    destruct (decide (tid = tid')) as [->|Hne].
    + rewrite list_lookup_alter_eq in Hth.
      destruct (pool w !! tid') as [th0|] eqn:Hth0; [|done].
      injection Hth as <-. by apply (Hclear tid' th0).
    + rewrite list_lookup_alter_ne in Hth by done. by apply Hclear.
Qed.

(** Starting a thread for a chat that has none. *)
Lemma spawn_keeps chat w :
  threads w !! chat = None -> keeps_registry_ok w (spawn chat w).2.
Proof.
  intros Hfree [Hreg Hclear]. unfold spawn. unfold_m.
  unfold registry_ok; cbn [snd threads pool]. split.
  - intros chat' tid' Hl. destruct (decide (chat = chat')) as [<-|Hne].
    + rewrite lookup_insert_eq in Hl. injection Hl as <-.
      exists (mkThread chat false true). by rewrite list_lookup_middle.
    + rewrite lookup_insert_ne in Hl by done.
      destruct (Hreg chat' tid' Hl) as (th & Hth & Hchat & Hstop).
      exists th. by rewrite (lookup_app_l_Some _ _ _ _ Hth).
  - intros tid' th Hth Hstop.
    apply lookup_app_Some in Hth as [Hth|[Hlen Hth]].
    + pose proof (Hclear tid' th Hth Hstop) as Hl.
      rewrite lookup_insert_ne; [done|]. intros Heq. congruence.
    + destruct (tid' - length (pool w))%nat as [|n] eqn:Hn; [|done].
      injection Hth as <-. cbn.
      replace tid' with (length (pool w)) by lia. apply lookup_insert_eq.
Qed.

Section Scheduler.

Context (env : Env).

(** No call to the outside touches the registry. *)
Let always (e : event) : Prop := True.

Lemma keeps_emit e w : always e -> keeps_registry_ok w (emit e w).
Proof. intros _. by apply same_registry_keeps. Qed.

Lemma keeps_send_message chat msg :
  stays keeps_registry_ok (send_message env chat msg).
Proof. by apply (stays_send_message env keeps_registry_ok always keeps_emit). Qed.

Lemma keeps_task_body chat : stays keeps_registry_ok (task_body env chat).
Proof.
  apply (stays_task_body env keeps_registry_ok always keeps_emit); try done;
    intros s w; by apply same_registry_keeps.
Qed.

Lemma keeps_run_task_logic chat is_manual_run :
  stays keeps_registry_ok (_run_task_logic env chat is_manual_run).
Proof.
  unfold _run_task_logic.
  apply (stays_try_except keeps_registry_ok); [apply keeps_task_body|].
  intros e. apply (stays_bind keeps_registry_ok); [apply keeps_send_message|].
  intros _. destruct (negb is_manual_run);
    [apply cancel_registered_keeps | apply stays_ret, _].
Qed.

(** The completeness check touches at most [self.settings]. *)
Lemma check_config_run chat w :
  exists complete w1,
    _check_config_complete chat w = (Ok complete, w1)
    /\ threads w1 = threads w /\ pool w1 = pool w /\ trace w1 = trace w.
Proof.
  unfold _check_config_complete. rewrite bind_run.
  pose proof (get_config_run chat w) as Hc.
  destruct (settings w !! chat); rewrite Hc; unfold ret; eauto 10.
Qed.

Lemma keeps_check_config chat :
  stays keeps_registry_ok (_check_config_complete chat).
Proof.
  intros w. apply same_registry_keeps.
  by destruct (check_config_run chat w) as (b & w1 & -> & Ht & Hp & _).
Qed.

(** A notice and [return] leave the registry alone. *)
Lemma notice_same_registry chat msg w :
  same_registry w (bind (send_message env chat msg) (fun _ => ret tt) w).2.
Proof. rewrite bind_run, send_message_run. cbn zeta. by destruct (tg env _). Qed.

(** What [start_liker_task] does to the registry: nothing, or, for a chat
    that has no thread, one new registered thread. *)
Lemma start_registry chat w :
  let w' := (start_liker_task env chat w).2 in
  same_registry w w'
  \/ (threads w !! chat = None
      /\ threads w' = <[chat := length (pool w)]> (threads w)
      /\ pool w' = pool w ++ [mkThread chat false true]).
Proof.
  cbn zeta. remember (start_liker_task env chat w) as res eqn:Hres.
  unfold start_liker_task in Hres. rewrite bind_run in Hres.
  destruct (check_config_run chat w) as (complete & w1 & Hcheck & Ht & Hp & _).
  rewrite Hcheck in Hres. destruct (negb complete).
  - left. subst res. etrans; [|apply notice_same_registry]. done.
  - rewrite bind_run in Hres. unfold get_world at 1 in Hres. rewrite Ht in Hres.
    destruct (threads w !! chat) eqn:Hl.
    + left. subst res. etrans; [|apply notice_same_registry]. done.
    + right. split; [done|]. rewrite bind_run in Hres. unfold spawn at 1 in Hres.
      rewrite bind_run in Hres.
      unfold get_world at 1, set_registry at 1 in Hres.
      rewrite bind_run, send_message_run in Hres. cbn zeta in Hres.
      subst res. destruct (tg env _); cbn; by rewrite Ht, Hp.
Qed.

Lemma keeps_start chat : stays keeps_registry_ok (start_liker_task env chat).
Proof.
  intros w. destruct (start_registry chat w) as [H|(Hfree & Ht & Hp)];
    [by apply same_registry_keeps|].
  intros Hok. pose proof (spawn_keeps chat w Hfree Hok) as Hs.
  unfold registry_ok in *. rewrite Ht, Hp. apply Hs.
Qed.

Lemma keeps_stop chat : stays keeps_registry_ok (stop_liker_task env chat).
Proof.
  unfold stop_liker_task.
  apply (stays_bind keeps_registry_ok); [apply stays_get_world, _|].
  intros w0. destruct (threads w0 !! chat).
  - apply (stays_bind keeps_registry_ok); [apply keeps_send_message|].
    intros _. apply cancel_registered_keeps.
  - apply (stays_bind keeps_registry_ok); [apply keeps_send_message|].
    intros _. apply stays_ret, _.
Qed.

(** Every step of the scheduler keeps the registry consistent. *)
Lemma sched_step_keeps w w' : sched_step env w w' -> keeps_registry_ok w w'.
Proof.
  destruct 1 as [chat w|chat w|chat w|tid th w|tid th w|tid th w|chat c w].
  - apply keeps_start.
  - apply keeps_stop.
  - revert w. unfold run_liker_now.
    apply (stays_bind keeps_registry_ok); [apply keeps_check_config|].
    intros complete. destruct (negb complete).
    + apply (stays_bind keeps_registry_ok); [apply keeps_send_message|].
      intros _. apply stays_ret, _.
    + apply (stays_bind keeps_registry_ok); [apply keeps_send_message|].
      intros _. apply (stays_bind keeps_registry_ok).
      * apply stays_capture, keeps_run_task_logic.
      * intros _. apply stays_ret, _.
  - revert w H H0. intros w _ _. revert w. unfold task_cycle.
    apply (stays_bind keeps_registry_ok).
    + apply stays_capture.
      apply (stays_bind keeps_registry_ok); [apply keeps_send_message|].
      intros _. apply (stays_bind keeps_registry_ok);
        [apply keeps_run_task_logic|].
      intros _. apply (stays_bind keeps_registry_ok); [apply keeps_send_message|].
      intros _. apply stays_ret, _.
    + intros [|]; [apply stays_ret, _ | apply thread_ends_keeps].
  - by apply same_registry_keeps.
  - revert w H H0 H1. intros w _ _ _. revert w. unfold task_exit.
    apply (stays_bind keeps_registry_ok).
    + apply stays_capture, keeps_send_message.
    + intros _. apply thread_ends_keeps.
  - by apply same_registry_keeps.
Qed.

Lemma fresh_registry_ok w : fresh w -> registry_ok w.
Proof.
  intros [Ht Hp]. split.
  - intros chat tid. by rewrite Ht, lookup_empty.
  - intros tid th. by rewrite Hp.
Qed.

Lemma reachable_registry_ok w0 w :
  fresh w0 -> rtc (sched_step env) w0 w -> registry_ok w.
Proof.
  intros Hfresh%fresh_registry_ok Hsteps.
  induction Hsteps as [|w1 w2 w3 Hstep _ IH]; [done|].
  by apply IH, (sched_step_keeps _ _ Hstep).
Qed.

(** The handler [start_liker_task] is its tests followed, when they pass,
    by the registration. *)
Lemma start_liker_task_split chat w :
  start_liker_task env chat w =
  bind (start_checks env chat)
       (fun ok => if ok then start_registers env chat else ret tt) w.
Proof.
  unfold start_liker_task, start_checks, start_registers.
  rewrite !bind_run.
  destruct (_check_config_complete chat w) as [[complete|e] w1]; [|done].
  destruct (negb complete).
  - rewrite !bind_run. by destruct (send_message env chat _ w1) as [[]].
  - rewrite !bind_run. unfold get_world at 1 2.
    destruct (threads w1 !! chat); [|done].
    rewrite !bind_run. by destruct (send_message env chat _ w1) as [[]].
Qed.

(** The cancellation of line 743 (and of lines 527-528) is [set] followed
    by [pop]. *)
Lemma cancel_registered_split chat w :
  cancel_registered chat w =
  match threads w !! chat with
  | Some _ => bind (cancel_set chat) (fun _ => cancel_pop chat) w
  | None => (Ok tt, w)
  end.
Proof.
  unfold cancel_registered, cancel_set, cancel_pop. unfold_m.
  by destruct (threads w !! chat).
Qed.

(** A periodic run is the run up to [set] followed, when the handler got
    there, by [pop]. *)
Lemma run_task_logic_split chat w e w1 tid :
  task_body env chat w = (Raise e, w1) ->
  threads w !! chat = Some tid ->
  tg env (trace w1 ++ [ESend chat (msg_failed e)]) = None ->
  _run_task_logic env chat false w =
  bind (run_until_set env chat) (fun _ => cancel_pop chat) w.
Proof.
  intros Hbody Hreg Htg.
  pose proof (stays_task_body env same_registry always
                ltac:(done) ltac:(done) ltac:(done) ltac:(done) ltac:(done)
                ltac:(done) ltac:(done) ltac:(done) ltac:(done) ltac:(done)
                ltac:(done) ltac:(done) chat w) as [Ht _].
  rewrite Hbody in Ht. cbn [snd] in Ht.
  unfold _run_task_logic, run_until_set, try_except. rewrite bind_run, Hbody.
  rewrite !bind_run, send_message_run. cbn zeta. cbn [emit trace].
  rewrite Htg. cbn [negb]. rewrite cancel_registered_split.
  rewrite (bind_run get_world). unfold get_world at 1.
  cbn [emit threads]. rewrite Ht, Hreg.
  rewrite !bind_run. by destruct (cancel_set chat _) as [[]].
Qed.

(** When the tests of [start_liker_task] pass they change nothing, so they
    pass again for a handler that runs them before the first one has
    registered its thread. *)
Lemma start_checks_true chat w :
  (start_checks env chat w).1 = Ok true ->
  start_checks env chat w = (Ok true, w) /\ threads w !! chat = None.
Proof.
  remember (start_checks env chat w) as res eqn:Hres. intros Hok.
  unfold start_checks, _check_config_complete in Hres.
  rewrite !bind_run in Hres.
  pose proof (get_config_run chat w) as Hc.
  destruct (settings w !! chat) as [c|]; rewrite Hc in Hres;
    unfold ret at 1 in Hres.
  - destruct (negb _).
    + rewrite bind_run, send_message_run in Hres. cbn zeta in Hres.
      destruct (tg env _); by subst res.
    + rewrite bind_run in Hres. unfold get_world at 1 in Hres.
      destruct (threads w !! chat); [|by subst res].
      rewrite bind_run, send_message_run in Hres. cbn zeta in Hres.
      destruct (tg env _); by subst res.
  - cbn in Hres. rewrite bind_run, send_message_run in Hres.
    cbn zeta in Hres. destruct (tg env _); by subst res.
Qed.

Lemma start_registers_registry chat w :
  threads (start_registers env chat w).2 = <[chat := length (pool w)]> (threads w)
  /\ pool (start_registers env chat w).2 = pool w ++ [mkThread chat false true].
Proof.
  unfold start_registers. rewrite bind_run.
  change (spawn chat w) with
    (Ok tt, mkWorld (settings w) (<[chat := length (pool w)]> (threads w))
              (pool w ++ [mkThread chat false true]) (store w) (trace w)).
  cbv beta iota.
  match goal with |- context [bind ?m ?f ?w0] =>
    destruct (notice_same_registry chat
                "▶️ <b>Automatic Liker Started.</b>" w0) as [Ht Hp]
  end.
  by rewrite Ht, Hp.
Qed.


End Scheduler.



(** The cancellation of line 743 interleaved with two handlers.  The thread
    of chat 7 fails in its first run and its handler gets as far as [set];
    [stop_liker_task] and [start_liker_task] run and register a second
    thread; the first thread goes on with its [pop], which removes the entry
    of the second; [start_liker_task] then registers a third thread, and the
    second and the third run with their stop events clear. *)
Example unlocked_cancel_race :
  let env := step1_refused in
  let w1 := (start_liker_task env 7 configured).2 in
  let w2 := (bind (send_message env 7 "ℹ️ 24-hour cycle starting...")
               (fun _ => run_until_set env 7) w1).2 in
  let w3 := (stop_liker_task env 7 w2).2 in
  let w4 := (start_liker_task env 7 w3).2 in
  let w5 := (cancel_pop 7 w4).2 in
  let w6 := (start_liker_task env 7 w5).2 in
  pool w2 = [mkThread 7 true true]
  /\ threads w2 !! 7 = Some 0%nat
  /\ threads w4 !! 7 = Some 1%nat
  /\ threads w5 !! 7 = None
  /\ pool w6 = [mkThread 7 true true; mkThread 7 false true;
                mkThread 7 false true]
  /\ two_unstopped w6.
Proof.
  cbn zeta.
  assert (Hpool : pool (start_liker_task step1_refused 7
                    (cancel_pop 7
                       (start_liker_task step1_refused 7
                          (stop_liker_task step1_refused 7
                             (bind (send_message step1_refused 7
                                      "ℹ️ 24-hour cycle starting...")
                                (fun _ => run_until_set step1_refused 7)
                                (start_liker_task step1_refused 7
                                   configured).2).2).2).2).2).2
                  = [mkThread 7 true true; mkThread 7 false true;
                     mkThread 7 false true])
    by (vm_compute; reflexivity).
  split; [vm_compute; reflexivity|]. split; [vm_compute; reflexivity|].
  split; [vm_compute; reflexivity|]. split; [vm_compute; reflexivity|].
  split; [exact Hpool|].
  exists 1%nat, 2%nat, (mkThread 7 false true), (mkThread 7 false true).
  rewrite Hpool. by repeat split.
Qed.

(** * Further properties of the code *)

(** ** The dispatch loop (lines 682-714) *)

Section DispatchLoop.

Context (env : Env).

(** One target, in all its cases: the loop body returns, counts the target
    once, appends one line for it, and makes one request, or one request and
    the notice, or both and a 120-second sleep and a second request, before
    the one-second pause. *)
Lemma like_one_run chat url st uid w :
  exists (ok : bool) txt evs w',
    like_one env chat url st uid w =
    (Ok (mkLike (like_success st + (if ok then 1 else 0))
                (like_fail st + (if ok then 0 else 1))
                (all_like_responses st ++ [response_line uid txt])), w')
    /\ trace w' = trace w ++ evs
    /\ (evs = [ELikeGet url uid; ESleep 1]
        \/ evs = [ELikeGet url uid; ESend chat (retry_notice uid); ESleep 1]
        \/ evs = [ELikeGet url uid; ESend chat (retry_notice uid); ESleep 120;
                  ELikeGet url uid; ESleep 1]).
Proof.
  unfold like_one, try_except.
  rewrite !bind_run, like_get_run. cbn zeta. cbn [trace emit].
  destruct (web env (trace w ++ [ELikeGet url uid])) as [r|e].
  - rewrite bind_run, retry_logic_run. cbn [trace emit].
    destruct (error_is sentinel r).
    + destruct (tg env _).
      * exists (status_code r =? 200), (text r). do 2 eexists.
        destruct (status_code r =? 200); cbn;
          (split; [rewrite ?Z.add_0_r; reflexivity|]);
          (split; [cbn [trace emit]; by rewrite <- !app_assoc|by right; left]).
      * destruct (web env _) as [r2|e2].
        -- exists (status_code r2 =? 200), (text r2). do 2 eexists.
           destruct (status_code r2 =? 200); cbn;
             (split; [rewrite ?Z.add_0_r; reflexivity|]);
             (split; [cbn [trace emit]; by rewrite <- !app_assoc|by right; right]).
        -- exists (status_code r =? 200), (text r). do 2 eexists.
           destruct (status_code r =? 200); cbn;
             (split; [rewrite ?Z.add_0_r; reflexivity|]);
             (split; [cbn [trace emit]; by rewrite <- !app_assoc|by right; right]).
    + exists (status_code r =? 200), (text r). do 2 eexists.
      destruct (status_code r =? 200); cbn;
        (split; [rewrite ?Z.add_0_r; reflexivity|]);
        (split; [cbn [trace emit]; by rewrite <- !app_assoc|by left]).
  - exists false, ("Request Error: " +:+ exn_str e). do 2 eexists. cbn.
    split; [rewrite ?Z.add_0_r; reflexivity|].
    split; [cbn [trace emit]; by rewrite <- !app_assoc|by left].
Qed.

Lemma count_events_app p evs1 evs2 :
  count_events p (evs1 ++ evs2) = (count_events p evs1 + count_events p evs2)%nat.
Proof. unfold count_events. by rewrite List.filter_app, length_app. Qed.

(** The whole loop, by induction on the targets. *)
Lemma dispatch_loop_run chat url targets :
  forall st w,
  exists st' w' texts evs,
    for_each targets st (like_one env chat url) w = (Ok st', w')
    /\ like_success st' + like_fail st' =
       like_success st + like_fail st + Z.of_nat (length targets)
    /\ length texts = length targets
    /\ all_like_responses st' =
       all_like_responses st ++ zip_with response_line targets texts
    /\ trace w' = trace w ++ evs
    /\ count_events is_pacing evs = length targets
    /\ (length targets <= count_events is_like_get evs <= 2 * length targets)%nat
    /\ Forall (fun e => is_like_get e = true ->
                        exists uid, uid ∈ targets /\ e = ELikeGet url uid) evs.
Proof.
  induction targets as [|uid targets IH]; intros st w.
  - exists st, w, [], []. cbn. rewrite !app_nil_r, Z.add_0_r.
    repeat split; try done; try lia.
  - cbn [for_each]. rewrite bind_run.
    destruct (like_one_run chat url st uid w)
      as (ok & txt & evs1 & w1 & -> & Htrace1 & Hevs1).
    destruct (IH (mkLike (like_success st + (if ok then 1 else 0))
                         (like_fail st + (if ok then 0 else 1))
                         (all_like_responses st ++ [response_line uid txt])) w1)
      as (st' & w' & texts & evs & -> & Hsum & Hlen & Hlines & Htrace & Hpace
          & Hlike & Hto).
    exists st', w', (txt :: texts), (evs1 ++ evs).
    cbn [like_success like_fail all_like_responses] in *.
    split; [done|]. split; [destruct ok; cbn [length]; lia|].
    split; [cbn; lia|].
    split; [by rewrite Hlines, <- app_assoc|].
    split; [by rewrite Htrace, Htrace1, app_assoc|].
    rewrite !count_events_app.
    assert (H1 : count_events is_pacing evs1 = 1%nat
                 /\ (1 <= count_events is_like_get evs1 <= 2)%nat
                 /\ Forall (fun e => is_like_get e = true ->
                                     e = ELikeGet url uid) evs1).
    { destruct Hevs1 as [-> | [-> | ->]]; cbn; repeat split; try lia;
        repeat constructor; done. }
    destruct H1 as (Hp1 & Hl1 & Hto1).
    split; [cbn [length]; lia|]. split; [cbn [length]; lia|].
    apply Forall_app. split.
    + eapply Forall_impl; [exact Hto1|]. cbn. intros e He Hget.
      exists uid. split; [by left|by apply He].
    + eapply Forall_impl; [exact Hto|]. cbn. intros e He Hget.
      destruct (He Hget) as (u & Hu & ->). exists u. split; [by right|done].
Qed.

(** X1: whatever the Action API and Telegram do, the loop over the targets
    never raises: it counts every target exactly once, as a success or as a
    failure, and appends one report line per target, in the order of the
    target list and under the target's own identifier. *)
Theorem dispatch_counts_every_target (chat : Z) (url : string)
    (targets : list string) (st : like_state) (w : World) :
  exists st' w' texts,
    for_each targets st (like_one env chat url) w = (Ok st', w')
    /\ like_success st' + like_fail st' =
       like_success st + like_fail st + Z.of_nat (length targets)
    /\ length texts = length targets
    /\ all_like_responses st' =
       all_like_responses st ++ zip_with response_line targets texts.
Proof.
  destruct (dispatch_loop_run chat url targets st w)
    as (st' & w' & texts & evs & H1 & H2 & H3 & H4 & _).
  by exists st', w', texts.
Qed.

(** X2: the loop pauses one second exactly once per target, whatever the
    outcome, and makes at least one and at most two like requests per target,
    each of them to the configured endpoint for a target of the list. *)
Theorem dispatch_pacing_and_request_bounds (chat : Z) (url : string)
    (targets : list string) (st : like_state) (w : World) :
  exists evs,
    trace (for_each targets st (like_one env chat url) w).2 = trace w ++ evs
    /\ count_events is_pacing evs = length targets
    /\ (length targets <= count_events is_like_get evs <= 2 * length targets)%nat
    /\ Forall (fun e => is_like_get e = true ->
                        exists uid, uid ∈ targets /\ e = ELikeGet url uid) evs.
Proof.
  destruct (dispatch_loop_run chat url targets st w)
    as (st' & w' & texts & evs & H1 & _ & _ & _ & H5 & H6 & H7 & H8).
  exists evs. by rewrite H1.
Qed.

End DispatchLoop.

(** ** The token stage: its requests and the order of its tokens *)

Lemma filter_notifications p evs :
  Forall notification evs ->
  (forall e, notification e -> p e = false) ->
  List.filter p evs = [].
Proof.
  intros Hall Hp. induction Hall as [|e evs He _ IH]; [done|].
  cbn. by rewrite (Hp e He).
Qed.

Section TokenStageMore.

Context (env : Env).

(** The world in which a bind ends is the one its continuation ends in. *)
Lemma bind_world {A B} (m : M A) (f : A -> M B) w a w1 :
  m w = (Ok a, w1) -> (bind m f w).2 = (f a w1).2.
Proof. intros H. by rewrite bind_run, H. Qed.

Lemma bind_result {A B} (m : M A) (f : A -> M B) w a w1 :
  m w = (Ok a, w1) -> bind m f w = f a w1.
Proof. intros H. by rewrite bind_run, H. Qed.

Lemma bind_ok_inv {A B} (m : M A) (f : A -> M B) w b :
  (bind m f w).1 = Ok b ->
  exists a w1, m w = (Ok a, w1) /\ (f a w1).1 = Ok b.
Proof.
  rewrite bind_run. destruct (m w) as [[a|e] w1]; [eauto|done].
Qed.

(** The submission loop requests a token once for each account with
    credentials, in the order of the list. *)
Lemma submit_all_trace (creds : list dict) (api_url : string) :
  forall total futures w,
  exists futures' w',
    for_each (JDict <$> creds) (total, futures) (submit_one env api_url) w
    = (Ok (total + Z.of_nat (length (List.filter has_credentials creds)),
           futures'), w')
    /\ trace w' =
       trace w ++ ((fun d => EJwtGet (full_url_of env d api_url))
                     <$> List.filter has_credentials creds).
Proof.
  induction creds as [|d creds IH]; intros total futures w.
  - exists futures, w. cbn. by rewrite Z.add_0_r, app_nil_r.
  - cbn [fmap list_fmap for_each List.filter].
    rewrite bind_run, submit_one_run.
    destruct (has_credentials d) eqn:Hc; cbn zeta.
    + edestruct IH as (futures' & w' & -> & Htrace).
      exists futures', w'. split.
      * do 3 f_equal. cbn [length]. lia.
      * rewrite Htrace. cbn [trace emit fmap list_fmap].
        by rewrite <- app_assoc.
    + apply IH.
Qed.

Lemma notify_send chat msg :
  stays (only notification) (send_message env chat msg).
Proof.
  apply (stays_send_message env (only notification) notification); try done.
  apply only_emit.
Qed.

Lemma notify_edit msg chat ref :
  stays (only notification) (edit_message_text env msg chat ref).
Proof.
  apply (stays_edit_message_text env (only notification) notification);
    try done.
  apply only_emit.
Qed.

Lemma notify_collect chat pm total st fu :
  stays (only notification) (collect env chat pm total st fu).
Proof.
  unfold collect, except_api.
  apply (stays_bind (only notification)); [apply stays_reraise, _|].
  intros [result_dict error_reason]. cbv zeta.
  destruct pm as [ref|]; [|apply stays_ret, _].
  destruct (_ || _); [|apply stays_ret, _].
  apply (stays_bind (only notification)); [|intros; apply stays_ret, _].
  apply (stays_try_except (only notification)); [apply notify_edit|].
  intros []; first [apply stays_ret, _ | apply stays_raise, _].
Qed.

(** What follows the submissions only talks to the chat. *)
Lemma notify_after_submit chat pm total futures :
  stays (only notification)
    (bind (for_each (as_completed env futures) (mkJwt [] 0 0 [] 0)
             (collect env chat pm total)) (fun st =>
     bind (match pm with
           | Some ref =>
               except_api
                 (edit_message_text env
                    ("✅ JWT Processing Complete for " +:+ str_int total
                     +:+ " accounts.") chat ref)
                 (bind (send_message env chat
                          ("✅ JWT Processing Complete for " +:+ str_int total
                           +:+ " accounts.")) (fun _ => ret tt))
           | None => ret tt
           end) (fun _ =>
     bind (if fail_count st >? 0 then
             try_except
               (bind (send_message env chat
                  ("⚠️ JWT Generation Failures:" +:+ nl +:+
                   String.concat nl
                     ((fun rc : option string * Z =>
                         "- " +:+ reason_str rc.1 +:+ ": "
                         +:+ str_int rc.2 +:+ " times")
                        <$> failed_reasons st)))
                  (fun _ => ret tt))
               (fun _ => ret tt)
           else ret tt) (fun _ =>
     ret (tokens_list st, success_count st, fail_count st, total))))).
Proof.
  apply (stays_bind (only notification)).
  { apply (stays_for_each (only notification)). intros. apply notify_collect. }
  intros st. apply (stays_bind (only notification)).
  { destruct pm as [ref|]; [|apply stays_ret, _]. unfold except_api.
    apply (stays_try_except (only notification)); [apply notify_edit|].
    intros []; try (apply stays_raise, _).
    apply (stays_bind (only notification)); [apply notify_send|].
    intros; apply stays_ret, _. }
  intros _. apply (stays_bind (only notification)); [|intros; apply stays_ret, _].
  destruct (fail_count st >? 0); [|apply stays_ret, _].
  apply (stays_try_except (only notification)); [|intros; apply stays_ret, _].
  apply (stays_bind (only notification)); [apply notify_send|].
  intros; apply stays_ret, _.
Qed.

(** X3: the token stage asks the token endpoint exactly once for each
    credential that has both fields, at the URL built from that credential,
    and for nothing else (no retry, no request for a credential missing a
    field): its token requests are, up to their order, which the workers do
    not fix, one per such credential; every other call it makes is a message
    to the chat. *)
Theorem token_stage_requests (chat : Z) (creds : list dict) (api_url : string)
    (w : World) :
  exists evs,
    trace (_fetch_jwt_concurrently_superbot_style env chat (JDict <$> creds)
             api_url w).2 = trace w ++ evs
    /\ List.filter is_jwt_get evs ≡ₚ
       (fun d => EJwtGet (full_url_of env d api_url))
         <$> List.filter has_credentials creds
    /\ Forall (fun e => is_jwt_get e = true \/ notification e) evs.
Proof.
  unfold _fetch_jwt_concurrently_superbot_style.
  set (accounts := JDict <$> creds).
  assert (Hstart : exists pm,
    try_except (bind (send_message env chat (msg_starting accounts))
                  (fun m => ret (Some m))) (fun _ => ret None) w
    = (Ok pm, emit (ESend chat (msg_starting accounts)) w)).
  { unfold try_except. rewrite bind_run, send_message_run. cbn zeta.
    destruct (tg env _); unfold ret; eauto. }
  destruct Hstart as (pm & Hstart).
  rewrite (bind_world _ _ _ _ _ Hstart). unfold submit_all.
  destruct (submit_all_trace creds api_url 0 []
              (emit (ESend chat (msg_starting accounts)) w))
    as (futures & w2 & Hsub & Htrace2).
  rewrite (bind_world _ _ _ _ _ Hsub). cbv beta iota zeta.
  destruct (notify_after_submit chat pm
              (0 + Z.of_nat (length (List.filter has_credentials creds)))
              futures w2) as (evs3 & Htrace3 & Hnotif).
  set (requests := (fun d => EJwtGet (full_url_of env d api_url))
                     <$> List.filter has_credentials creds) in *.
  exists ([ESend chat (msg_starting accounts)] ++ requests ++ evs3).
  split; [|split].
  - rewrite Htrace3, Htrace2. cbn [trace emit]. by rewrite <- !app_assoc.
  - rewrite !List.filter_app. cbn [List.filter is_jwt_get app].
    rewrite (filter_notifications is_jwt_get evs3 Hnotif),  app_nil_r;
      [|by intros []].
    subst requests. clear.
    induction (List.filter has_credentials creds) as [|d l IH]; [done|].
    cbn. by rewrite IH.
  - apply Forall_app. split; [by apply Forall_singleton; right|].
    apply Forall_app. split.
    + subst requests. apply Forall_fmap, Forall_forall. intros; by left.
    + eapply Forall_impl; [exact Hnotif|]. cbn. auto.
Qed.

(** One pass of the collecting loop adds the future's token, if it has
    one, at the end of [tokens_list]. *)
Lemma collect_tokens chat pm total st fu w :
  match collect env chat pm total st fu w with
  | (Ok st', _) =>
      tokens_list st' =
      tokens_list st ++ option_list (token_of_future fu)
  | (Raise _, _) => True
  end.
Proof.
  unfold collect, token_of_future. rewrite bind_run.
  destruct fu.2 as [[result_dict error_reason]|e]; cbn [reraise];
    [unfold ret at 1|done].
  set (b := match result_dict with Some d => truthy d | None => false end).
  assert (Hb : tokens_list
                 (if b
                  then mkJwt (tokens_list st ++ [default JNull result_dict])
                         (success_count st + 1) (fail_count st)
                         (failed_reasons st) (processed_count st + 1)
                  else mkJwt (tokens_list st) (success_count st)
                         (fail_count st + 1)
                         (bump error_reason (failed_reasons st))
                         (processed_count st + 1))
               = tokens_list st ++
                 option_list match result_dict with
                             | Some d => if truthy d then Some d else None
                             | None => None
                             end).
  { subst b. destruct result_dict as [d|]; cbn;
      [destruct (truthy d); cbn|]; by rewrite ?app_nil_r. }
  cbv zeta. destruct pm as [ref|]; [|done].
  destruct (_ || _); [|done].
  rewrite bind_run, except_api_edit. cbn zeta.
  by destruct (tg env _) as [[]|].
Qed.

Lemma collect_loop_tokens chat pm total futures :
  forall st w,
  match for_each futures st (collect env chat pm total) w with
  | (Ok st', _) =>
      tokens_list st' = tokens_list st ++ omap token_of_future futures
  | (Raise _, _) => True
  end.
Proof.
  induction futures as [|fu futures IH]; intros st w.
  - cbn. by rewrite app_nil_r.
  - cbn [for_each]. rewrite bind_run.
    pose proof (collect_tokens chat pm total st fu w) as Hstep.
    destruct (collect env chat pm total st fu w) as [[st1|e] w1]; [|done].
    specialize (IH st1 w1).
    destruct (for_each futures st1 _ w1) as [[st2|e] w2]; [|done].
    rewrite IH, Hstep, <- app_assoc. f_equal. cbn [omap list_omap].
    by destruct (token_of_future fu).
Qed.

(** X4: the tokens the stage returns are the tokens of the successful
    fetches taken in the order in which the futures complete
    ([as_completed]), not in the order of submission; as a collection they
    are the same as the successes in submission order. *)
Theorem tokens_in_completion_order (chat : Z) (creds : list dict)
    (api_url : string) (w : World) :
  let accounts := JDict <$> creds in
  exists total futures w2,
    submit_all env accounts api_url (emit (ESend chat (msg_starting accounts)) w)
    = (Ok (total, futures), w2)
    /\ forall tokens s f t,
         (_fetch_jwt_concurrently_superbot_style env chat accounts api_url
            w).1 = Ok (tokens, s, f, t) ->
         tokens = omap token_of_future (as_completed env futures)
         /\ tokens ≡ₚ omap token_of_future futures.
Proof.
  cbn zeta. set (accounts := JDict <$> creds).
  unfold _fetch_jwt_concurrently_superbot_style.
  assert (Hstart : exists pm,
    try_except (bind (send_message env chat (msg_starting accounts))
                  (fun m => ret (Some m))) (fun _ => ret None) w
    = (Ok pm, emit (ESend chat (msg_starting accounts)) w)).
  { unfold try_except. rewrite bind_run, send_message_run. cbn zeta.
    destruct (tg env _); unfold ret; eauto. }
  destruct Hstart as (pm & Hstart).
  rewrite (bind_result _ _ _ _ _ Hstart). unfold submit_all.
  destruct (submit_all_trace creds api_url 0 []
              (emit (ESend chat (msg_starting accounts)) w))
    as (futures & w2 & Hsub & _).
  eexists _, futures, w2. split; [exact Hsub|].
  rewrite (bind_result _ _ _ _ _ Hsub). cbv beta iota zeta.
  intros tokens s f t Hres.
  apply bind_ok_inv in Hres as (st & w3 & Hl & Hres).
  apply bind_ok_inv in Hres as (? & w4 & _ & Hres).
  apply bind_ok_inv in Hres as (? & w5 & _ & Hres).
  cbn in Hres. injection Hres as <- _ _ _.
  pose proof (collect_loop_tokens chat pm
                (0 + Z.of_nat (length (List.filter has_credentials creds)))
                (as_completed env futures) (mkJwt [] 0 0 [] 0) w2) as Hloop.
  rewrite Hl in Hloop. cbn [tokens_list app] in Hloop.
  split; [done|]. by rewrite Hloop, as_completed_Permutation.
Qed.

End TokenStageMore.

(** Two credentials: the token of the second comes first. *)
Example completion_order_reverses :
  (_fetch_jwt_concurrently_superbot_style reversing 7
     [JDict account1; JDict account1] "https://jwt.example/api" empty_world).1
  = Ok (one_token "3" ++ one_token "2", 2, 0, 2).
Proof. vm_compute. reflexivity. Qed.

(** ** The report of step 3 in chunks (lines 717-730) *)

Lemma string_length_app (s1 s2 : string) :
  String.length (s1 +:+ s2) = (String.length s1 + String.length s2)%nat.
Proof.
  induction s1 as [|a s1 IH]; [done|].
  change (S (String.length (s1 +:+ s2)) = S (String.length s1 + String.length s2)).
  by rewrite IH.
Qed.

Lemma py_len_app (s1 s2 : string) :
  py_len (s1 +:+ s2) = (py_len s1 + py_len s2)%nat.
Proof.
  induction s1 as [|a s1 IH]; [done|].
  change (((if is_continuation a then 0 else 1) + py_len (s1 +:+ s2))%nat =
          ((if is_continuation a then 0 else 1) + py_len s1 + py_len s2)%nat).
  rewrite IH. lia.
Qed.

Lemma py_len_nl : py_len nl = 1%nat.
Proof. reflexivity. Qed.

Lemma string_app_assoc (s1 s2 s3 : string) :
  (s1 +:+ s2) +:+ s3 = s1 +:+ s2 +:+ s3.
Proof.
  induction s1 as [|a s1 IH]; [done|].
  change (String a ((s1 +:+ s2) +:+ s3) = String a (s1 +:+ s2 +:+ s3)).
  by rewrite IH.
Qed.

Lemma string_app_nil_r (s : string) : s +:+ "" = s.
Proof.
  induction s as [|a s IH]; [done|].
  change (String a (s +:+ "") = String a s). by rewrite IH.
Qed.

Lemma string_concat_cons sep (x y : string) (l : list string) :
  String.concat sep (x :: y :: l) = x +:+ sep +:+ String.concat sep (y :: l).
Proof. reflexivity. Qed.

Lemma string_concat_snoc_cons sep (x : string) (l : list string) (y : string) :
  String.concat sep (x :: l ++ [y]) = x +:+ sep +:+ String.concat sep (l ++ [y]).
Proof. by destruct l. Qed.

Lemma glued_cons line lines : glued (line :: lines) = nl +:+ line +:+ glued lines.
Proof.
  unfold glued. destruct lines as [|l lines]; cbn [fmap list_fmap].
  - cbn. by rewrite string_app_nil_r.
  - rewrite string_concat_cons. by rewrite string_app_assoc.
Qed.

Lemma string_app_nonempty (s1 s2 : string) : s2 <> "" -> s1 +:+ s2 <> "".
Proof.
  intros H2 H. apply (f_equal String.length) in H.
  rewrite string_length_app in H. destruct s2; [done|]. cbn in H. lia.
Qed.

Section Chunks.

Context (env : Env).

(** The loop of [send_responses] is the fold of [chunk_step]. *)
Lemma send_responses_unfold chat responses :
  send_responses env chat responses =
  match responses with
  | [] => ret tt
  | _ :: _ =>
      bind (send_message env chat msg_results) (fun _ =>
      bind (for_each responses "" (chunk_step env chat)) (fun cur =>
      if negb (String.eqb cur "")
      then bind (send_message env chat cur) (fun _ => ret tt)
      else ret tt))
  end.
Proof. reflexivity. Qed.

Lemma notice_world chat msg w :
  (bind (send_message env chat msg) (fun _ => ret tt) w).2 =
  emit (ESend chat msg) w.
Proof. rewrite bind_run, send_message_run. cbn zeta. by destruct (tg env _). Qed.

Lemma chunk_step_run chat cur line w :
  chunk_step env chat cur line w =
  if (4000 <? py_len cur + py_len line)%nat then
    match tg env (trace w ++ [ESend chat cur]) with
    | None => (Ok line, emit (ESend chat cur) w)
    | Some e => (Raise e, emit (ESend chat cur) w)
    end
  else (Ok (cur +:+ nl +:+ line), w).
Proof.
  unfold chunk_step. destruct (_ <? _)%nat; [|done].
  rewrite bind_run, send_message_run. cbn zeta. cbn [trace emit].
  by destruct (tg env _).
Qed.

(** Every chunk the loop sends, and the one it leaves, is of bounded size or
    a single line. *)
Lemma chunk_loop_sized chat all lines :
  forall cur w,
    lines ⊆ all -> chunk_sized all cur ->
    only (fun e => exists msg, e = ESend chat msg /\ chunk_sized all msg) w
         (for_each lines cur (chunk_step env chat) w).2
    /\ forall cur', (for_each lines cur (chunk_step env chat) w).1 = Ok cur' ->
                    chunk_sized all cur'.
Proof.
  induction lines as [|line lines IH]; intros cur w Hsub Hcur.
  - cbn. split; [reflexivity|]. by intros cur' [= <-].
  - cbn [for_each]. rewrite bind_run, chunk_step_run.
    assert (Hline : line ∈ all) by (apply Hsub; by left).
    assert (Hsub' : lines ⊆ all) by (intros x Hx; apply Hsub; by right).
    destruct (Nat.ltb_spec 4000 (py_len cur + py_len line)).
    + destruct (tg env _).
      * cbn. split; [|done]. by apply only_emit; eexists.
      * destruct (IH line (emit (ESend chat cur) w) Hsub')
          as [Honly Hpost]; [by right|].
        split; [|done]. etrans; [|exact Honly]. by apply only_emit; eexists.
    + apply IH; [done|]. left.
      rewrite !py_len_app, py_len_nl. lia.
Qed.

(** X5: every message [send_responses] sends is the header, or has at most
    4001 characters (counted as [len] counts them, in code points), or is one
    report line on its own (a line that is by itself longer than the
    threshold is sent whole): the threshold of 4000 is checked before the
    separating newline is added. *)
Theorem report_chunks_are_bounded (chat : Z) (responses : list string)
    (w : World) :
  only (fun e => exists msg, e = ESend chat msg
                 /\ (msg = msg_results \/ chunk_sized responses msg))
       w (send_responses env chat responses w).2.
Proof.
  rewrite send_responses_unfold. destruct responses as [|r0 rs]; [reflexivity|].
  set (responses := r0 :: rs).
  apply bind_step; [apply _ | |].
  { rewrite send_message_world. apply only_emit. eauto. }
  intros _ _. rewrite send_message_world.
  destruct (chunk_loop_sized chat responses responses ""
              (emit (ESend chat msg_results) w)) as [Honly Hpost];
    [done | left; cbn; lia |].
  assert (Hweak : forall w1 w2,
    only (fun e => exists msg, e = ESend chat msg /\ chunk_sized responses msg)
         w1 w2 ->
    only (fun e => exists msg, e = ESend chat msg
                   /\ (msg = msg_results \/ chunk_sized responses msg)) w1 w2).
  { intros w1 w2 (evs & Ht & Hall). exists evs. split; [done|].
    eapply Forall_impl; [exact Hall|]. cbn. intros e (msg & -> & H). eauto. }
  apply bind_step; [apply _ | by apply Hweak |].
  intros cur Hcur. specialize (Hpost cur Hcur).
  destruct (negb (String.eqb cur "")); [|reflexivity].
  apply bind_step; [apply _ | |intros; reflexivity].
  rewrite send_message_world. apply only_emit. eauto.
Qed.

(** With Telegram taking every message, the loop neither loses nor
    reorders a line: the chunks it sent and the one it holds, joined by
    newlines, are what it started with followed by all the lines. *)
Lemma chunk_loop_content chat lines :
  (forall h, tg env h = None) ->
  Forall (fun l => l <> "") lines ->
  forall cur w,
  exists chunks cur' w',
    for_each lines cur (chunk_step env chat) w = (Ok cur', w')
    /\ trace w' = trace w ++ (ESend chat <$> chunks)
    /\ String.concat nl (chunks ++ [cur']) = cur +:+ glued lines
    /\ (cur <> "" \/ lines <> [] -> cur' <> "").
Proof.
  intros Htg Hne. induction Hne as [|line lines Hline _ IH]; intros cur w.
  - exists [], cur, w. cbn. rewrite app_nil_r, string_app_nil_r.
    repeat split; try done. by intros [|].
  - cbn [for_each]. rewrite bind_run, chunk_step_run, Htg.
    destruct (_ <? _)%nat.
    + destruct (IH line (emit (ESend chat cur) w))
        as (chunks & cur' & w' & -> & Htrace & Hjoin & Hcur').
      exists (cur :: chunks), cur', w'. split; [done|]. split.
      { rewrite Htrace. cbn [trace emit fmap list_fmap].
        by rewrite <- app_assoc. }
      split; [|intros _; apply Hcur'; by left].
      rewrite <- app_comm_cons, string_concat_snoc_cons, Hjoin, glued_cons.
      done.
    + destruct (IH (cur +:+ nl +:+ line) w)
        as (chunks & cur' & w' & -> & Htrace & Hjoin & Hcur').
      exists chunks, cur', w'. split; [done|]. split; [done|].
      split.
      * by rewrite Hjoin, glued_cons, !string_app_assoc.
      * intros _. apply Hcur'. left.
        by apply string_app_nonempty, string_app_nonempty.
Qed.

(** X6: when Telegram takes every message, the report loses and reorders
    nothing: after the header, the messages sent, joined by newlines, are
    exactly the report lines in order, each behind a newline (a flush drops
    the newline between two chunks, and nothing else). *)
Theorem report_chunks_preserve_lines (chat : Z) (responses : list string)
    (w : World) :
  (forall h, tg env h = None) ->
  responses <> [] ->
  Forall (fun l => l <> "") responses ->
  exists chunks,
    (send_responses env chat responses w).1 = Ok tt
    /\ trace (send_responses env chat responses w).2 =
       trace w ++ (ESend chat <$> (msg_results :: chunks))
    /\ String.concat nl chunks = glued responses.
Proof.
  intros Htg Hsome Hne. rewrite send_responses_unfold.
  destruct responses as [|r0 rs]; [done|]. set (responses := r0 :: rs) in *.
  rewrite bind_run, send_message_run. cbn zeta. rewrite Htg.
  destruct (chunk_loop_content chat responses Htg Hne ""
              (emit (ESend chat msg_results) w))
    as (chunks & cur' & w' & Hloop & Htrace & Hjoin & Hcur').
  rewrite bind_run, Hloop.
  assert (Hcur : cur' <> "") by (apply Hcur'; by right).
  apply String.eqb_neq in Hcur. rewrite Hcur. cbn [negb].
  rewrite bind_run, send_message_run. cbn zeta. rewrite Htg.
  exists (chunks ++ [cur']). split; [done|]. split; [|done].
  unfold ret. cbn [snd trace emit]. rewrite Htrace.
  cbn [trace emit fmap list_fmap].
  rewrite fmap_app. cbn [fmap list_fmap]. by rewrite <- !app_assoc.
Qed.

(** X7: when the first report line is by itself longer than 4000 characters
    ([len], in code points), the first chunk sent after the header is the
    empty string: the loop flushes its still empty buffer before taking the
    line. *)
Theorem oversized_first_line_sends_empty_chunk (chat : Z) (line : string)
    (rest : list string) (w : World) :
  (4000 < py_len line)%nat ->
  tg env (trace w ++ [ESend chat msg_results]) = None ->
  exists evs,
    trace (send_responses env chat (line :: rest) w).2 =
    trace w ++ [ESend chat msg_results; ESend chat ""] ++ evs.
Proof.
  intros Hlong Htg. rewrite send_responses_unfold.
  rewrite bind_run, send_message_run. cbn zeta. cbn [trace emit]. rewrite Htg.
  cbn [for_each]. rewrite !bind_run, chunk_step_run.
  apply Nat.ltb_lt in Hlong. cbn [py_len Nat.add]. rewrite Hlong.
  cbn [trace emit].
  destruct (tg env ((trace w ++ [ESend chat msg_results]) ++ [ESend chat ""])).
  - exists []. cbn. by rewrite <- !app_assoc.
  - set (w1 := emit (ESend chat "") (emit (ESend chat msg_results) w)).
    destruct (chunk_loop_sized chat (line :: rest) rest line w1)
      as [(evs1 & Htrace1 & _) Hpost]; [by intros x Hx; right | by right; left |].
    destruct (for_each rest line (chunk_step env chat) w1) as [[cur|e] w2].
    + cbn [snd] in Htrace1. destruct (negb (String.eqb cur "")).
      * exists (evs1 ++ [ESend chat cur]). cbn [snd].
        rewrite notice_world. cbn [trace emit]. rewrite Htrace1. subst w1.
        cbn [trace emit]. by rewrite <- !app_assoc.
      * exists evs1. cbn [snd ret]. rewrite Htrace1. subst w1.
        cbn [trace emit]. by rewrite <- !app_assoc.
    + exists evs1. cbn [snd] in *. rewrite Htrace1. subst w1.
      cbn [trace emit]. by rewrite <- !app_assoc.
Qed.

End Chunks.

Lemma report_chunks_preserve_lines_witness :
  exists chunks,
    (send_responses (answering timed_out) 7 ["a"; "b"] empty_world).1 = Ok tt
    /\ trace (send_responses (answering timed_out) 7 ["a"; "b"] empty_world).2 =
       trace empty_world ++ (ESend 7 <$> (msg_results :: chunks))
    /\ String.concat nl chunks = glued ["a"; "b"].
Proof.
  apply (report_chunks_preserve_lines (answering timed_out) 7 ["a"; "b"]
           empty_world (fun _ => eq_refl)).
  - discriminate.
  - repeat constructor; discriminate.
Defined.

Lemma oversized_first_line_sends_empty_chunk_witness :
  exists evs,
    trace (send_responses (answering timed_out) 7 [long_line] empty_world).2 =
    trace empty_world ++ [ESend 7 msg_results; ESend 7 ""] ++ evs.
Proof.
  apply (oversized_first_line_sends_empty_chunk (answering timed_out) 7
           long_line [] empty_world).
  - vm_compute. lia.
  - reflexivity.
Defined.

(** [len] and slices count code points, not bytes. *)
Example len_counts_code_points :
  py_len "é€" = 2%nat /\ String.length "é€" = 5%nat
  /\ py_prefix 1 "é€x" = "é".
Proof. by vm_compute. Qed.

(** Two lines of 1500 two-byte characters each make one chunk of 3002
    characters. *)
Example accented_lines_share_a_chunk :
  trace (send_responses (answering timed_out) 7
           [accented_line; accented_line] empty_world).2
  = [ESend 7 msg_results;
     ESend 7 (nl +:+ accented_line +:+ nl +:+ accented_line)].
Proof. vm_compute. reflexivity. Qed.

(** ** Runs and the registry of threads *)

Section RunsAndRegistry.

Context (env : Env).

Let any_call (e : event) : Prop := True.

Lemma same_registry_emit e w : any_call e -> same_registry w (emit e w).
Proof. done. Qed.

Lemma same_registry_task_body chat : stays same_registry (task_body env chat).
Proof.
  by apply (stays_task_body env same_registry any_call same_registry_emit).
Qed.

Lemma same_registry_send_message chat msg :
  stays same_registry (send_message env chat msg).
Proof.
  by apply (stays_send_message env same_registry any_call same_registry_emit).
Qed.

Lemma same_registry_check_config chat :
  stays same_registry (_check_config_complete chat).
Proof.
  intros w. by destruct (check_config_run chat w) as (b & w1 & -> & Ht & Hp & _).
Qed.

(** X8: a manual run never touches the registry of background threads,
    whatever happens in it: neither [_run_task_logic] with
    [is_manual_run=True] nor the handler [run_liker_now] registers,
    unregisters or stops a thread, also when the run fails unexpectedly. *)
Theorem manual_run_leaves_registry (chat : Z) (w : World) :
  same_registry w (_run_task_logic env chat true w).2
  /\ same_registry w (run_liker_now env chat w).2.
Proof.
  assert (Hrun : stays same_registry (_run_task_logic env chat true)).
  { unfold _run_task_logic.
    apply (stays_try_except same_registry); [apply same_registry_task_body|].
    intros e. apply (stays_bind same_registry);
      [apply same_registry_send_message|].
    intros _. apply stays_ret, _. }
  split; [apply Hrun|]. revert w. unfold run_liker_now.
  apply (stays_bind same_registry); [apply same_registry_check_config|].
  intros complete. destruct (negb complete).
  - apply (stays_bind same_registry); [apply same_registry_send_message|].
    intros _. apply stays_ret, _.
  - apply (stays_bind same_registry); [apply same_registry_send_message|].
    intros _. apply (stays_bind same_registry).
    + apply stays_capture, Hrun.
    + intros _. apply stays_ret, _.
Qed.

(** The handler of line 741 in periodic mode, by cases on what Telegram
    does with the failure notice. *)
Lemma handler_run (chat : Z) (w w1 : World) (e : exn)
    (tid : nat) :
  task_body env chat w = (Raise e, w1) ->
  threads w !! chat = Some tid ->
  let w2 := emit (ESend chat (msg_failed e)) w1 in
  _run_task_logic env chat false w =
  match tg env (trace w2) with
  | None =>
      (Ok tt, mkWorld (settings w2) (delete chat (threads w))
                      (alter set_stop tid (pool w)) (store w2) (trace w2))
  | Some e' =>
      (Raise e', mkWorld (settings w2) (threads w) (pool w) (store w2)
                         (trace w2))
  end.
Proof.
  intros Hbody Hreg. cbn zeta.
  pose proof (same_registry_task_body chat w) as [Ht Hp].
  rewrite Hbody in Ht, Hp. cbn [snd] in Ht, Hp.
  unfold _run_task_logic, try_except. rewrite Hbody.
  rewrite bind_run, send_message_run. cbn zeta. cbn [emit trace].
  destruct (tg env _).
  - unfold emit. cbn. by rewrite Ht, Hp.
  - cbn [negb]. unfold cancel_registered. unfold_m.
    rewrite Ht, Hreg. cbn. by rewrite Hp.
Qed.

(** X9: when the body of a periodic run raises, the handler first sends the
    failure notice and only then cancels the schedule.  If the notice is
    delivered the run returns normally with the chat unregistered and the
    stop event of its thread set; if Telegram refuses the notice the run
    raises that error and the chat stays registered with its stop event
    clear. *)
Theorem periodic_failure_cancels_schedule (chat : Z) (w w1 : World) (e : exn)
    (tid : nat) :
  task_body env chat w = (Raise e, w1) ->
  threads w !! chat = Some tid ->
  let w2 := emit (ESend chat (msg_failed e)) w1 in
  _run_task_logic env chat false w =
  match tg env (trace w2) with
  | None =>
      (Ok tt, mkWorld (settings w2) (delete chat (threads w))
                      (alter set_stop tid (pool w)) (store w2) (trace w2))
  | Some e' =>
      (Raise e', mkWorld (settings w2) (threads w) (pool w) (store w2)
                         (trace w2))
  end.
Proof. apply handler_run. Qed.

(** X10: a run that returns normally, be it complete or one of the announced
    cancellations, leaves the registry as it was, in periodic mode too: only
    the unexpected-failure handler ever cancels a schedule. *)
Theorem normal_return_keeps_schedule (chat : Z) (is_manual_run : bool)
    (w w1 : World) :
  task_body env chat w = (Ok tt, w1) ->
  _run_task_logic env chat is_manual_run w = (Ok tt, w1)
  /\ same_registry w w1.
Proof.
  intros Hbody. split.
  - unfold _run_task_logic, try_except. by rewrite Hbody.
  - pose proof (same_registry_task_body chat w) as H. by rewrite Hbody in H.
Qed.


(** X12: while one of the seven settings is missing or empty, both
    [start_liker_task] and [run_liker_now] do nothing but send the refusal:
    no thread is registered or started, no file is written, and no other
    call is made. *)
Theorem incomplete_config_is_refused (chat : Z) (w : World) :
  (_check_config_complete chat w).1 = Ok false ->
  let refused (w' : World) :=
    trace w' = trace w ++ [ESend chat msg_incomplete]
    /\ same_registry w w' /\ store w' = store w in
  refused (start_liker_task env chat w).2
  /\ refused (run_liker_now env chat w).2.
Proof.
  intros Hcheck. cbn zeta.
  assert (Hc : exists w1, _check_config_complete chat w = (Ok false, w1)
                 /\ threads w1 = threads w /\ pool w1 = pool w
                 /\ trace w1 = trace w /\ store w1 = store w).
  { unfold _check_config_complete in *. rewrite bind_run in *.
    pose proof (get_config_run chat w) as Hg.
    destruct (settings w !! chat); rewrite Hg in *; unfold ret in *;
      cbn [fst] in Hcheck; rewrite Hcheck; eauto 10. }
  destruct Hc as (w1 & Hrun & Ht & Hp & Htr & Hst).
  unfold start_liker_task, run_liker_now. rewrite !bind_run, Hrun.
  cbn [negb]. rewrite bind_run, send_message_run. cbn zeta.
  unfold msg_incomplete, same_registry.
  destruct (tg env _); cbn; rewrite Ht, Hp, Htr, Hst; done.
Qed.

(** X20: in the loop of the background thread, a cycle whose run fails
    unexpectedly still goes on after the handler has cancelled the schedule:
    the failure notice is followed by the notice that the cycle is complete
    and the bot is waiting 24 hours, although the chat is no longer
    registered. *)
Theorem failed_cycle_still_announces_wait (tid : nat) (chat : Z)
    (w w1 : World) (e : exn) :
  let w0 := emit (ESend chat "ℹ️ 24-hour cycle starting...") w in
  tg env (trace w0) = None ->
  task_body env chat w0 = (Raise e, w1) ->
  threads w !! chat = Some tid ->
  tg env (trace w1 ++ [ESend chat (msg_failed e)]) = None ->
  let w' := (task_cycle env tid chat w).2 in
  trace w' = trace w1 ++ [ESend chat (msg_failed e);
                          ESend chat "ℹ️ Cycle complete. Waiting 24 hours..."]
  /\ threads w' = delete chat (threads w).
Proof.
  cbn zeta. intros Htg Hbody Hreg Hnotice.
  pose proof (handler_run chat _ w1 e tid Hbody Hreg) as Hrun.
  cbn zeta in Hrun. cbn [emit trace] in Hrun. rewrite Hnotice in Hrun.
  assert (Hcycle : exists p,
    (task_cycle env tid chat w).2 =
    mkWorld (settings w1) (delete chat (threads w)) p (store w1)
      (trace w1 ++ [ESend chat (msg_failed e);
                    ESend chat "ℹ️ Cycle complete. Waiting 24 hours..."])).
  { unfold task_cycle. rewrite bind_run. unfold capture at 1.
    rewrite bind_run, send_message_run. cbn zeta. rewrite Htg.
    rewrite bind_run, Hrun, bind_run, send_message_run. cbn zeta.
    cbn [emit trace settings threads pool store].
    match goal with |- context [tg env ?h] => destruct (tg env h) end;
      try unfold thread_ends; unfold_m; cbn; eexists; by rewrite <- app_assoc. }
  destruct Hcycle as [p ->]. done.
Qed.

End RunsAndRegistry.

Lemma periodic_failure_cancels_schedule_witness :
  let env := answering timed_out in
  exists w2,
    _run_task_logic env 7 false scheduled_without_api = (Ok tt, w2)
    /\ threads w2 = ∅ /\ pool w2 = [mkThread 7 true true].
Proof.
  pose proof (periodic_failure_cancels_schedule (answering timed_out) 7
                scheduled_without_api
                (task_body (answering timed_out) 7 scheduled_without_api).2
                (KeyError "jwt_api") 0%nat eq_refl eq_refl) as H.
  cbn zeta in H. eexists. split; [exact H|]. split; reflexivity.
Defined.

Lemma normal_return_keeps_schedule_witness :
  same_registry scheduled
    (task_body (answering timed_out) 7 scheduled).2.
Proof.
  apply (normal_return_keeps_schedule (answering timed_out) 7 false scheduled
           (task_body (answering timed_out) 7 scheduled).2).
  vm_compute. reflexivity.
Defined.


Lemma incomplete_config_is_refused_witness :
  trace (run_liker_now (answering timed_out) 7 empty_world).2
  = [ESend 7 msg_incomplete].
Proof.
  apply (proj2 (incomplete_config_is_refused (answering timed_out) 7
                  empty_world eq_refl)).
Defined.

Lemma failed_cycle_still_announces_wait_witness :
  exists before,
    trace (task_cycle (answering timed_out) 0 7 scheduled_without_api).2
    = before ++ [ESend 7 (msg_failed (KeyError "jwt_api"));
                 ESend 7 "ℹ️ Cycle complete. Waiting 24 hours..."].
Proof.
  eexists.
  apply (failed_cycle_still_announces_wait (answering timed_out) 0 7
           scheduled_without_api _ (KeyError "jwt_api")
           eq_refl eq_refl eq_refl eq_refl).
Defined.

(** ** What a run leaves alone: the settings, the other files, and the store
    of a run that has no tokens *)

#[global] Instance same_settings_preorder : PreOrder same_settings.
Proof.
  split; [done|]. unfold same_settings. intros w1 w2 w3 H1 H2. congruence.
Qed.

#[global] Instance same_file_preorder k : PreOrder (same_file k).
Proof.
  split; [done|]. unfold same_file. intros w1 w2 w3 H1 H2. congruence.
Qed.

#[global] Instance unpublished_preorder : PreOrder unpublished.
Proof.
  split.
  - intros w. split; [reflexivity|done].
  - intros w1 w2 w3 [H1 S1] [H2 S2]. split; [by etrans|congruence].
Qed.

Section WholeRun.

Context (env : Env) (R : relation World) `{!PreOrder R}.

Hypothesis R_emit : forall e w, R w (emit e w).
Hypothesis R_registry :
  forall t p w, R w (mkWorld (settings w) t p (store w) (trace w)).

Let any_call (e : event) : Prop := True.

Lemma R_emit' e w : any_call e -> R w (emit e w).
Proof. intros _. apply R_emit. Qed.

(** From the configuration [c] on, a run keeps whatever its calls, the
    handler and the publication keep. *)
Lemma frame_run chat is_manual_run w :
  (forall tokens, stays R (publish env chat (config_of chat w) tokens)) ->
  R (_get_config chat w).2 (_run_task_logic env chat is_manual_run w).2.
Proof.
  intros Hpub.
  assert (Hsend : forall c m, stays R (send_message env c m))
    by (intros; by apply (stays_send_message env R any_call R_emit')).
  assert (Hnotice : forall c m,
            stays R (bind (send_message env c m) (fun _ => ret tt))).
  { intros. apply (stays_bind R); [apply Hsend|]. intros _. apply stays_ret, _. }
  assert (Hlikes : forall c a b s, stays R (send_likes env chat c a b s))
    by (intros; by apply (stays_send_likes env R any_call R_emit')).
  assert (Htokens : forall a u,
            stays R (_fetch_jwt_concurrently_superbot_style env chat a u))
    by (intros; by apply (stays_token_stage env R any_call R_emit')).
  assert (Hfrom : stays R (from_step1 env chat (config_of chat w))).
  { unfold from_step1, from_step2, after_publish, sleep.
    apply (stays_bind R); [apply Hsend|]. intros _. cbv zeta.
    destruct (default [] (guest_accounts (config_of chat w)));
      [apply Hnotice|].
    apply (stays_bind R); [apply stays_subscript, _|]. intros api_url.
    apply (stays_bind R); [apply Htokens|]. intros [[[toks s] f] t].
    apply (stays_bind R); [apply Hsend|]. intros _.
    destruct toks as [|tok toks]; [apply Hnotice|].
    apply (stays_bind R); [apply Hsend|]. intros _.
    apply (stays_bind R); [apply stays_capture, Hpub|]. intros [status|e].
    - apply (stays_bind R); [apply Hsend|]. intros _.
      apply (stays_bind R); [intros w0; by apply R_emit|]. intros _.
      apply Hlikes.
    - apply Hnotice. }
  unfold _run_task_logic, try_except, task_body. rewrite bind_run.
  assert (Hget : _get_config chat w
                 = (Ok (config_of chat w), (_get_config chat w).2)).
  { pose proof (get_config_run chat w) as Hc. unfold config_of.
    destruct (settings w !! chat); by rewrite Hc. }
  rewrite Hget. cbn [snd].
  set (w0 := (_get_config chat w).2).
  assert (Hbody : R w0 ((if negb (config_truthy (config_of chat w))
                         then ret tt else from_step1 env chat (config_of chat w))
                          w0).2).
  { destruct (negb _); [reflexivity | apply Hfrom]. }
  destruct ((if negb (config_truthy (config_of chat w)) then ret tt
             else from_step1 env chat (config_of chat w)) w0)
    as [[[]|e] w1]; [done|].
  cbn [snd] in Hbody. etrans; [exact Hbody|].
  apply (stays_bind R); [apply Hsend|]. intros _.
  destruct (negb is_manual_run); [|apply stays_ret, _].
  intros w2. unfold cancel_registered. unfold_m.
  destruct (threads w2 !! chat); [apply R_registry | reflexivity].
Qed.

End WholeRun.

Section Untouched.

Context (env : Env).

(** What the update step does to the store, whatever GitHub answers. *)
Lemma github_update_store c tokens w :
  match github_update env c tokens w with
  | (Raise _, w') => store w' = store w
  | (Ok status, w') =>
      exists repo path sha,
        github_repo c = Some repo /\ github_file_path c = Some path
        /\ store w' !! (repo, path) = Some (json_dumps env tokens, sha)
        /\ (forall k, k <> (repo, path) -> store w' !! k = store w !! k)
        /\ (status = "Unchanged" -> store w' = store w)
  end.
Proof.
  unfold github_update, get_contents, update_file, create_file.
  destruct (github_token c) as [token|]; [|done].
  destruct (github_repo c) as [repo|]; [|done].
  destruct (github_file_path c) as [path|];
    [|unfold_m; by destruct (gh env _)].
  unfold_m.
  repeat match goal with
         | H : gh env ?h = _ |- context [gh env ?h] => rewrite H
         | H : store w !! ?k = _ |- context [store w !! ?k] => rewrite H
         | |- context [gh env ?h] => destruct (gh env h) as [[]|] eqn:?
         | |- context [store w !! ?k] =>
             destruct (store w !! k) as [[old cur]|] eqn:?
         | |- context [String.eqb ?a ?b] => destruct (String.eqb_spec a b)
         | |- context [decide ?P] => destruct (decide P)
         | _ => progress cbn
         end;
    try done;
    exists repo, path; eexists; cbn in *; subst;
    (split; [done|]); (split; [done|]);
    (split; [first [eassumption | by rewrite lookup_insert_eq]|]);
    (split; [intros k Hk; by rewrite ?lookup_insert_ne by done | done]).
Qed.

(** X13: the update step is all or nothing, whatever GitHub answers: when it
    raises, the store is as it was; when it returns, the configured file
    holds the serialization of the token set and no other file has changed,
    and with the status "Unchanged" nothing was written at all. *)
Theorem publish_is_all_or_nothing (c : config) (tokens : list json)
    (w : World) :
  match github_update env c tokens w with
  | (Raise _, w') => store w' = store w
  | (Ok status, w') =>
      exists repo path sha,
        github_repo c = Some repo /\ github_file_path c = Some path
        /\ store w' !! (repo, path) = Some (json_dumps env tokens, sha)
        /\ (forall k, k <> (repo, path) -> store w' !! k = store w !! k)
        /\ (status = "Unchanged" -> store w' = store w)
  end.
Proof. apply github_update_store. Qed.

(** X14: a run never edits the configuration it runs on: the settings after
    a run are the settings before it, except that a chat that had no entry
    has the empty one ([setdefault]). *)
Theorem run_leaves_settings (chat : Z) (is_manual_run : bool) (w : World) :
  settings (_run_task_logic env chat is_manual_run w).2 =
  match settings w !! chat with
  | Some _ => settings w
  | None => <[chat := empty_config]> (settings w)
  end.
Proof.
  pose proof (frame_run env same_settings) as H.
  specialize (H ltac:(done) ltac:(done) chat is_manual_run w).
  unfold same_settings in H. rewrite H.
  - pose proof (get_config_run chat w) as Hc.
    destruct (settings w !! chat); by rewrite Hc.
  - intros tokens.
    by apply (stays_publish env same_settings (fun _ => True)).
Qed.

(** X15: a run writes no file but the configured one: every file of the
    store other than [github_file_path] of [github_repo] is after the run
    what it was before, on every path through the run. *)
Theorem run_writes_only_configured_file (chat : Z) (is_manual_run : bool)
    (w : World) (k : string * string) :
  (forall repo path,
     github_repo (config_of chat w) = Some repo ->
     github_file_path (config_of chat w) = Some path -> k <> (repo, path)) ->
  store (_run_task_logic env chat is_manual_run w).2 !! k = store w !! k.
Proof.
  intros Hk.
  pose proof (frame_run env (same_file k)) as H.
  specialize (H ltac:(done) ltac:(done) chat is_manual_run w).
  unfold same_file in H. rewrite H.
  - pose proof (get_config_run chat w) as Hc.
    destruct (settings w !! chat); by rewrite Hc.
  - intros tokens. unfold publish.
    apply (stays_bind (same_file k)).
    + intros w0. unfold same_file.
      pose proof (github_update_store (config_of chat w) tokens w0) as Hu.
      destruct (github_update env (config_of chat w) tokens w0)
        as [[status|e] w']; cbn [snd]; [|by rewrite Hu].
      destruct Hu as (repo & path & sha & Hr & Hp & _ & Hother & _).
      apply Hother. by apply Hk.
    + intros status. apply (stays_bind (same_file k)).
      * by apply (stays_send_message env (same_file k) (fun _ => True)).
      * intros _. apply stays_ret, _.
Qed.

(** X16: a run that has no credentials, and a run whose token stage yields
    no token, publish nothing: from start to return they make no GitHub call
    at all, and the store is as it was.  An empty token set is never
    written. *)
Theorem nothing_published_without_tokens (chat : Z) (is_manual_run : bool)
    (w : World) :
  let c := config_of chat w in
  let w' := (_run_task_logic env chat is_manual_run w).2 in
  (list_truthy (guest_accounts c) = false -> unpublished w w') /\
  (forall api_url s f t,
     jwt_api c = Some api_url ->
     (_fetch_jwt_concurrently_superbot_style env chat
        (default [] (guest_accounts c)) api_url
        (emit (ESend chat msg_step1) w)).1 = Ok ([], s, f, t) ->
     unpublished w w').
Proof.
  cbn zeta.
  assert (Hemit : forall e w0, is_github e = false -> unpublished w0 (emit e w0))
    by (intros e w0 He; split; [by apply only_emit | done]).
  assert (Hsame : forall w0 w1, trace w1 = trace w0 -> store w1 = store w0 ->
                                unpublished w0 w1)
    by (intros w0 w1 Ht Hs; split; [by apply only_same_trace | done]).
  split.
  - intros Hacc.
    destruct (frame_no_credentials env unpublished (fun e => is_github e = false)
                Hemit ltac:(intros; by apply Hsame)
                ltac:(intros; by apply Hsame) ltac:(done) chat w Hacc)
      as [Hf Ht].
    by destruct is_manual_run.
  - intros api_url s f t Hapi Hstage.
    destruct (frame_no_tokens env unpublished (fun e => is_github e = false)
                Hemit ltac:(intros; by apply Hsame)
                ltac:(intros; by apply Hsame) ltac:(done) ltac:(done)
                ltac:(done) chat w api_url s f t Hapi Hstage)
      as [Hf Ht].
    by destruct is_manual_run.
Qed.

End Untouched.

Lemma run_writes_only_configured_file_witness :
  store (_run_task_logic (answering (Ok token_answer)) 7 true configured).2
    !! ("owner/repo", "other.json") = None.
Proof.
  apply (run_writes_only_configured_file (answering (Ok token_answer)) 7 true
           configured ("owner/repo", "other.json")).
  intros repo path Hr Hp. vm_compute in Hr, Hp. congruence.
Defined.

Lemma nothing_published_without_tokens_witness :
  unpublished (world_with (example_config no_secret_accounts))
    (_run_task_logic (answering timed_out) 7 true
       (world_with (example_config no_secret_accounts))).2.
Proof.
  apply (proj2 (nothing_published_without_tokens (answering timed_out) 7 true
                  (world_with (example_config no_secret_accounts)))
           "https://jwt.example/api" 0 0 0 eq_refl).
  vm_compute. reflexivity.
Defined.

(** ** The target UIDs and the files of the converter *)

Lemma add_target_uids_spec (uids : list string) :
  forall target_list count,
    let r := add_target_uids target_list uids count in
    (exists added, r.1 = target_list ++ added
                   /\ r.2 = (count + length added)%nat
                   /\ (forall u, u ∈ added -> u ∈ uids /\ u ∉ target_list)
                   /\ NoDup added)
    /\ (forall u, u ∈ uids -> u ∈ r.1).
Proof.
  induction uids as [|uid rest IH]; intros target_list count; cbn zeta.
  - cbn. split; [|by intros u Hu%elem_of_nil].
    exists []. rewrite app_nil_r. cbn.
    split; [done|]. split; [lia|]. split; [|constructor].
    by intros u Hu%elem_of_nil.
  - cbn [add_target_uids]. case_bool_decide as Hin.
    + destruct (IH target_list count) as [(added & H1 & H2 & H3 & H4) H5].
      split.
      * exists added. split; [done|]. split; [done|]. split; [|done].
        intros u Hu. destruct (H3 u Hu) as [? ?].
        split; [by apply list_elem_of_further | done].
      * intros u [->|Hu]%elem_of_cons; [|by apply H5].
        rewrite H1. apply elem_of_app. by left.
    + destruct (IH (target_list ++ [uid]) (S count))
        as [(added & H1 & H2 & H3 & H4) H5].
      split.
      * exists (uid :: added). rewrite H1, H2, <- app_assoc. cbn.
        split; [done|]. split; [lia|]. split.
        -- intros u [->|Hu]%elem_of_cons; [split; [by left|done]|].
           destruct (H3 u Hu) as [? Hn]. split; [by apply list_elem_of_further|].
           intros Hc. apply Hn. apply elem_of_app. by left.
        -- constructor; [|done]. intros Hu. destruct (H3 uid Hu) as [_ Hn].
           apply Hn. apply elem_of_app. right. by apply list_elem_of_singleton.
      * intros u [->|Hu]%elem_of_cons; [|by apply H5].
        rewrite H1. apply elem_of_app. left. apply elem_of_app. right.
        by apply list_elem_of_singleton.
Qed.

(** X17: adding UIDs appends, in the order given, exactly those that are
    not yet in the list, each once; the list keeps its old entries in
    place, stays free of duplicates, and the count the bot reports is the
    growth of the list.  Sending the same UIDs again adds nothing. *)
Theorem added_uids_stay_unique (target_list uids : list string) :
  NoDup target_list ->
  let r := add_target_uids target_list uids 0 in
  NoDup r.1
  /\ (exists added, r.1 = target_list ++ added)
  /\ length r.1 = (length target_list + r.2)%nat
  /\ (forall u, u ∈ r.1 <-> u ∈ target_list \/ u ∈ uids)
  /\ add_target_uids r.1 uids 0 = (r.1, 0%nat).
Proof.
  intros Hnd. cbn zeta.
  destruct (add_target_uids_spec uids target_list 0)
    as [(added & H1 & H2 & H3 & H4) H5]. cbn zeta in *.
  split; [|split; [|split; [|split]]].
  - rewrite H1. apply NoDup_app. split; [done|]. split; [|done].
    intros u Hu Ha. by destruct (H3 u Ha).
  - by exists added.
  - rewrite H1, H2, length_app. lia.
  - intros u. split.
    + rewrite H1. intros [?|Ha]%elem_of_app; [by left|].
      right. by destruct (H3 u Ha).
    + intros [Hu|Hu]; [|by apply H5].
      rewrite H1. apply elem_of_app. by left.
  - destruct (add_target_uids_spec uids (add_target_uids target_list uids 0).1 0)
      as [(again & G1 & G2 & G3 & _) _]. cbn zeta in *.
    destruct again as [|u again].
    + rewrite app_nil_r in G1. cbn in G2.
      destruct (add_target_uids _ uids 0) as [l n] eqn:E in G1, G2 |- *.
      cbn in *. by subst.
    + destruct (G3 u) as [Hu Hn]; [by left|]. destruct (Hn (H5 u Hu)).
Qed.

Lemma list_remove_first_spec (x : string) (l : list string) :
  x ∈ l ->
  exists before after,
    l = before ++ x :: after /\ (x ∉ before)
    /\ list_remove_first x l = before ++ after.
Proof.
  induction l as [|y l IH]; [by intros ?%elem_of_nil|].
  intros Hin. cbn [list_remove_first]. destruct (String.eqb_spec y x) as [->|Hne].
  - exists [], l. split; [done|]. split; [by intros ?%elem_of_nil | done].
  - apply elem_of_cons in Hin as [->|Hin]; [done|].
    destruct (IH Hin) as (before & after & -> & Hn & ->).
    exists (y :: before), after. split; [done|]. split; [|done].
    intros [->|?]%elem_of_cons; done.
Qed.

(** X18: removing a UID takes out its first occurrence and nothing else:
    the list gets one shorter and the other entries keep their order.  For
    a list without duplicates, as adding keeps it, the UID is gone
    afterwards; a UID that is not in the list is reported and the list is
    left alone. *)
Theorem removed_uid_is_gone (uid : string) (target_list : list string) :
  match remove_target_uid uid target_list with
  | None => uid ∉ target_list
  | Some l' =>
      (exists before after,
         target_list = before ++ uid :: after /\ (uid ∉ before)
         /\ l' = before ++ after)
      /\ S (length l') = length target_list
      /\ (NoDup target_list -> (uid ∉ l') /\ NoDup l')
  end.
Proof.
  unfold remove_target_uid. case_bool_decide as Hin; [|done].
  destruct (list_remove_first_spec uid target_list Hin)
    as (before & after & -> & Hn & ->).
  split; [by exists before, after|]. split.
  - rewrite !length_app. cbn. lia.
  - intros Hnd. apply NoDup_app in Hnd as (Hb & Hdisj & Ha).
    apply NoDup_cons in Ha as [Hu Ha]. split.
    + by intros [?|?]%elem_of_app.
    + apply NoDup_app. split; [done|]. split; [|done].
      intros u Hub Hua. apply (Hdisj u Hub). by apply list_elem_of_further.
Qed.

(** A duplicate that came in otherwise survives one removal. *)
Example duplicate_survives_removal :
  remove_target_uid "42" ["42"; "7"; "42"] = Some ["7"; "42"].
Proof. reflexivity. Qed.

Lemma concat_chunks {A} (l : list A) (s n : nat) :
  concat ((fun k => take s (drop (k * s) l)) <$> seq 0 n) = take (n * s) l.
Proof.
  induction n as [|n IH]; [done|].
  rewrite seq_S, fmap_app, concat_app, IH. cbn [fmap list_fmap concat].
  rewrite app_nil_r, take_take_drop. f_equal. lia.
Qed.

Lemma div_up_bounds (n s : nat) :
  (0 < s)%nat ->
  (n <= (n + s - 1) / s * s)%nat
  /\ (forall k, k < (n + s - 1) / s -> k * s < n)%nat.
Proof.
  intros Hs.
  pose proof (Nat.div_mod (n + s - 1) s ltac:(lia)) as Hdm.
  pose proof (Nat.mod_upper_bound (n + s - 1) s ltac:(lia)) as Hm.
  split; [nia|]. intros k Hk. nia.
Qed.

Lemma string_app_cancel_r (c a b : string) : a +:+ c = b +:+ c -> a = b.
Proof.
  intros H.
  assert (Hl : String.length a = String.length b).
  { apply (f_equal String.length) in H. rewrite !string_length_app in H. lia. }
  revert b H Hl. induction a as [|x a IH]; intros [|y b] H Hl; try done.
  change (String x (a +:+ c) = String y (b +:+ c)) in H.
  injection H as -> H. f_equal. apply IH; [done|]. cbn in Hl. lia.
Qed.


Lemma added_uids_stay_unique_witness :
  add_target_uids ["7"] ["42"; "7"; "42"] 0 = (["7"; "42"], 1%nat)
  /\ NoDup (add_target_uids ["7"] ["42"; "7"; "42"] 0).1.
Proof.
  split; [reflexivity|].
  apply (added_uids_stay_unique ["7"] ["42"; "7"; "42"]).
  apply NoDup_singleton.
Defined.
